(** * Agentic System (open-source edition): memory engine, agent runtime, council

    A shallow embedding of the parts of the three MCP services that the
    specification's testable properties talk about, and the proofs that settle
    them.

    - [Council]: [backend/council.py] of [llm-council-mcp]
      ([_create_label_mapping], [calculate_aggregate_rankings]).
    - [Safla]: [safla-mcp/server.py] ([generate_local_embeddings]), with the
      SHA-512 of [hashlib] written out.
    - [Runtime]: [agent-runtime-mcp/server.py] (task queue, relay pipelines,
      circuit breakers).
    - [Memory]: [enhanced-memory-mcp/server.py] (entity creation, working
      memory, skills, version diff).

    Conventions.  A SQLite table is the list of its rows in rowid order when
    the code iterates over it or orders it, and a finite map keyed by its
    primary key when the code only reads and writes single rows by that key.
    [ORDER BY] is a stable sort of the rows in rowid order (SQL leaves the
    order of full ties open; no statement below depends on it).  Timestamps
    are integers (ticks of the clock).  Python floats are the kernel's
    binary64 numbers ([PrimFloat]) where the code computes with constants and
    small integers (importance scores, rank averages, embeddings); the running
    success rate of a skill, which has no bound on its inputs, is given by
    exact rationals and a rounding operator (section [SkillExecution]). *)

From Stdlib Require Import ZArith QArith Lia Bool List Sorted Permutation.
From Stdlib Require Import String Ascii DecimalString.
From Stdlib Require Import Floats.
From stdpp Require Import gmap strings list.

Local Open Scope Z_scope.
Local Open Scope list_scope.

(* Decimal float literals stand for the nearest binary64 value, as in Python. *)
Set Warnings "-inexact-float".

(** ** Stable sorting

    Python's [list.sort] and SQLite's sorter are modelled by the one stable
    sort there is: any two stable sorts agree on every input, so the choice of
    insertion sort fixes no behaviour the source leaves open.  [before x y]
    says that [x]'s key is strictly smaller than [y]'s. *)

Section StableSort.
Context {A : Type}.
Variable before : A -> A -> bool.

Fixpoint insert_sorted (x : A) (l : list A) : list A :=
  match l with
  | [] => [x]
  | y :: l' => if before y x then y :: insert_sorted x l' else x :: y :: l'
  end.

Definition stable_sort (l : list A) : list A :=
  List.fold_right insert_sorted [] l.

(** [x] does not come strictly after [y]. *)
Definition not_after (x y : A) : Prop := before y x = false.

Lemma insert_sorted_perm x l : Permutation (insert_sorted x l) (x :: l).
Proof.
  induction l as [|y l IH]; simpl; [reflexivity|].
  destruct (before y x); [|reflexivity].
  rewrite IH. apply perm_swap.
Qed.

Lemma stable_sort_perm l : Permutation (stable_sort l) l.
Proof.
  induction l as [|x l IH]; simpl; [constructor|].
  rewrite insert_sorted_perm. now constructor.
Qed.

Lemma stable_sort_In x l : In x (stable_sort l) <-> In x l.
Proof.
  split; apply Permutation_in;
    [apply stable_sort_perm | symmetry; apply stable_sort_perm].
Qed.



Hypothesis before_asym : forall a b, before a b = true -> before b a = false.
Hypothesis not_after_trans :
  forall a b c, not_after a b -> not_after b c -> not_after a c.

Lemma insert_sorted_Forall (P : A -> Prop) x l :
  P x -> Forall P l -> Forall P (insert_sorted x l).
Proof.
  intros Hx Hl. eapply Permutation_Forall.
  - symmetry. apply insert_sorted_perm.
  - now constructor.
Qed.

Lemma insert_sorted_strongly x l :
  StronglySorted not_after l -> StronglySorted not_after (insert_sorted x l).
Proof.
  induction 1 as [|y l Hl IH Hy]; simpl.
  - repeat constructor.
  - destruct (before y x) eqn:Hyx.
    + constructor; [exact IH|].
      apply insert_sorted_Forall; [|exact Hy].
      apply before_asym, Hyx.
    + constructor; [now constructor|].
      constructor; [exact Hyx|].
      eapply List.Forall_impl; [|exact Hy].
      intros z Hz. eapply not_after_trans; [exact Hyx|exact Hz].
Qed.

Lemma stable_sort_strongly l : StronglySorted not_after (stable_sort l).
Proof.
  induction l as [|x l IH]; simpl; [constructor|].
  now apply insert_sorted_strongly.
Qed.

(** The head of the sorted list is a minimum of the input. *)
Lemma stable_sort_head x rest l :
  stable_sort l = x :: rest -> forall y, In y l -> not_after x y.
Proof.
  intros Hs y Hy.
  pose proof (stable_sort_strongly l) as Hss. rewrite Hs in Hss.
  apply StronglySorted_inv in Hss as [_ Hall].
  apply stable_sort_In in Hy. rewrite Hs in Hy. destruct Hy as [<-|Hy].
  - unfold not_after. destruct (before x x) eqn:E; [|reflexivity].
    now rewrite (before_asym _ _ E) in E.
  - rewrite List.Forall_forall in Hall. now apply Hall.
Qed.
End StableSort.


(** ** Binary64 helpers

    [float_of_Z] is Python's [float(n)] for [0 <= n < 2^53] (exact there);
    [float_value] is the exact rational a finite float stands for. *)

Definition float_of_Z (n : Z) : float := PrimFloat.of_uint63 (Uint63.of_Z n).

Definition float_value (f : float) : Q :=
  match Prim2SF f with
  | S754_finite s m e =>
      let v := if s then Z.neg m else Z.pos m in
      if (0 <=? e)%Z then inject_Z (v * 2 ^ e) else Qmake v (Z.to_pos (2 ^ (- e)))
  | _ => 0%Q
  end.

(** Nearest integer to a rational, ties to the even one. *)
Definition round_half_even (q : Q) : Z :=
  let n := Qnum q in
  let d := Z.pos (Qden q) in
  let fl := n / d in
  let r := n mod d in
  match (2 * r ?= d)%Z with
  | Lt => fl
  | Gt => fl + 1
  | Eq => if Z.even fl then fl else fl + 1
  end.

(** Python's [round(x, 2)], as the integer number of hundredths of its result.
    CPython rounds the exact binary value of [x] to the nearest two-digit
    decimal (ties to even) and returns the float nearest to that decimal; two
    such floats compare as their hundredths do. *)
Definition round2 (x : float) : Z :=
  round_half_even (Qmult (inject_Z 100) (float_value x)).

(** ** Deliberation council: aggregate ranking ([backend/council.py]) *)

Module Council.

(** One Stage-2 evaluation; [parsed_ranking] may be missing from the dict
    ([ranking.get("parsed_ranking", [])]). *)
Record ranking := {
  evaluator : string;
  raw_evaluation : string;
  parsed_ranking : option (list string)
}.

(** One entry of the result list.  [average_rank] is [round(avg_rank, 2)] in
    hundredths (see [round2]). *)
Record aggregate := {
  model : string;
  label : string;
  average_rank : Z;
  vote_count : nat;
  positions : list nat
}.

(** A Python dict whose iteration order matters: keys in insertion order. *)
Definition dict (V : Type) := list (string * V).

Fixpoint dict_get {V} (k : string) (d : dict V) : option V :=
  match d with
  | [] => None
  | (k', v) :: d' => if String.eqb k' k then Some v else dict_get k d'
  end.

(** [string.ascii_uppercase] *)
Definition ascii_uppercase : list string :=
  ["A"; "B"; "C"; "D"; "E"; "F"; "G"; "H"; "I"; "J"; "K"; "L"; "M";
   "N"; "O"; "P"; "Q"; "R"; "S"; "T"; "U"; "V"; "W"; "X"; "Y"; "Z"]%string.

Fixpoint zip {X Y} (xs : list X) (ys : list Y) : list (X * Y) :=
  match xs, ys with
  | x :: xs', y :: ys' => (x, y) :: zip xs' ys'
  | _, _ => []
  end.

(** [_create_label_mapping]; the models are the keys of the Stage-1 dict, so
    they are distinct and so are the labels. *)
Definition _create_label_mapping (models : list string) : dict string :=
  let labels := firstn (length models) ascii_uppercase in
  List.map (fun lm => (String.append "Response " (fst lm), snd lm)) (zip labels models).

(** [rank_positions[label].append(position)], guarded by
    [if label in rank_positions]. *)
Definition append_position (lbl : string) (position : nat)
    (rank_positions : dict (list nat)) : dict (list nat) :=
  List.map (fun kv => if String.eqb (fst kv) lbl
                      then (fst kv, snd kv ++ [position]) else kv)
           rank_positions.

(** [for position, label in enumerate(parsed, 1)] *)
Fixpoint record_ranking (parsed : list string) (position : nat)
    (rank_positions : dict (list nat)) : dict (list nat) :=
  match parsed with
  | [] => rank_positions
  | lbl :: rest =>
      record_ranking rest (S position) (append_position lbl position rank_positions)
  end.

Definition collect_positions (rankings : list ranking)
    (rank_positions : dict (list nat)) : dict (list nat) :=
  List.fold_left
    (fun rp r => record_ranking (default [] (parsed_ranking r)) 1%nat rp)
    rankings rank_positions.

(** [sum(positions) / len(positions)] *)
Definition avg_rank (ps : list nat) : float :=
  PrimFloat.div (float_of_Z (Z.of_nat (list_sum ps)))
                (float_of_Z (Z.of_nat (length ps))).

Definition make_entry (lbl mdl : string) (ps : list nat) : aggregate :=
  {| model := mdl; label := lbl; average_rank := round2 (avg_rank ps);
     vote_count := length ps; positions := ps |}.

(** The list [results] before it is sorted. *)
Definition unsorted_results (rank_positions : dict (list nat))
    (label_to_model : dict string) : list aggregate :=
  List.flat_map
    (fun lm =>
       match dict_get (fst lm) rank_positions with
       | Some (p :: ps) => [make_entry (fst lm) (snd lm) (p :: ps)]
       | _ => []
       end)
    label_to_model.

Definition by_average_rank (a b : aggregate) : bool :=
  average_rank a <? average_rank b.

Definition calculate_aggregate_rankings (rankings : list ranking)
    (label_to_model : dict string) : list aggregate :=
  let rank_positions :=
    collect_positions rankings (List.map (fun lm => (fst lm, [])) label_to_model) in
  stable_sort by_average_rank (unsorted_results rank_positions label_to_model).

(** The positions (counted from 1) at which [lbl] stands in one ranking, and
    in all of them, evaluator by evaluator. *)
Fixpoint positions_from (lbl : string) (position : nat) (parsed : list string) : list nat :=
  match parsed with
  | [] => []
  | l :: rest =>
      (if String.eqb l lbl then [position] else []) ++ positions_from lbl (S position) rest
  end.

Definition positions_of (lbl : string) (rankings : list ranking) : list nat :=
  List.flat_map (fun r => positions_from lbl 1%nat (default [] (parsed_ranking r))) rankings.

(** The scenario of the specification: three responses, two evaluators. *)
Definition seed_label_to_model : dict string :=
  _create_label_mapping ["claude"; "codex"; "gemini"]%string.


(** What the result holds before sorting, read off the evaluators' rankings:
    one entry per label of [label_to_model] that some evaluator ranked, in the
    order of [label_to_model]. *)
Definition expected_entries (rankings : list ranking)
    (label_to_model : dict string) : list aggregate :=
  List.flat_map
    (fun lm =>
       match positions_of (fst lm) rankings with
       | [] => []
       | p :: ps => [make_entry (fst lm) (snd lm) (p :: ps)]
       end)
    label_to_model.


Lemma dict_get_append_position lbl l position rp ps :
  dict_get lbl rp = Some ps ->
  dict_get lbl (append_position l position rp)
  = Some (ps ++ if String.eqb l lbl then [position] else []).
Proof.
  induction rp as [|[k v] rp IH]; simpl; [discriminate|].
  destruct (String.eqb k l) eqn:Hkl; simpl;
    destruct (String.eqb k lbl) eqn:Hk; intros H.
  - apply String.eqb_eq in Hkl, Hk. subst.
    rewrite String.eqb_refl. congruence.
  - now apply IH.
  - injection H as <-. destruct (String.eqb l lbl) eqn:Hl.
    + apply String.eqb_eq in Hl, Hk. subst. rewrite String.eqb_refl in Hkl.
      discriminate.
    + now rewrite app_nil_r.
  - now apply IH.
Qed.

Lemma dict_get_record_ranking lbl parsed : forall position rp ps,
  dict_get lbl rp = Some ps ->
  dict_get lbl (record_ranking parsed position rp)
  = Some (ps ++ positions_from lbl position parsed).
Proof.
  induction parsed as [|l rest IH]; intros position rp ps H; simpl.
  - now rewrite app_nil_r.
  - rewrite (IH _ _ _ (dict_get_append_position _ l position _ _ H)).
    now rewrite <- app_assoc.
Qed.

Lemma dict_get_collect_positions lbl rankings : forall rp ps,
  dict_get lbl rp = Some ps ->
  dict_get lbl (collect_positions rankings rp)
  = Some (ps ++ positions_of lbl rankings).
Proof.
  unfold collect_positions, positions_of.
  induction rankings as [|r rs IH]; intros rp ps H; simpl.
  - now rewrite app_nil_r.
  - rewrite (IH _ _ (dict_get_record_ranking _ _ _ _ _ H)).
    now rewrite <- app_assoc.
Qed.

Lemma dict_get_initial lbl (label_to_model : dict string) :
  In lbl (List.map fst label_to_model) ->
  dict_get lbl (List.map (fun lm => (fst lm, @nil nat)) label_to_model) = Some [].
Proof.
  induction label_to_model as [|[k v] d IH]; simpl; [tauto|].
  intros [->|H].
  - now rewrite String.eqb_refl.
  - destruct (String.eqb k lbl); [reflexivity|now apply IH].
Qed.

Lemma unsorted_results_spec rank_positions rankings (l : dict string) :
  (forall lm, In lm l ->
     dict_get (fst lm) rank_positions = Some (positions_of (fst lm) rankings)) ->
  unsorted_results rank_positions l = expected_entries rankings l.
Proof.
  unfold unsorted_results, expected_entries.
  induction l as [|lm l IH]; intros H; simpl; [reflexivity|].
  rewrite (H lm (or_introl eq_refl)).
  rewrite IH; [reflexivity|]. intros lm' Hin. apply H. now right.
Qed.

Lemma results_before_sort rankings (label_to_model : dict string) :
  unsorted_results
    (collect_positions rankings (List.map (fun lm => (fst lm, [])) label_to_model))
    label_to_model
  = expected_entries rankings label_to_model.
Proof.
  apply unsorted_results_spec. intros lm Hin.
  apply (dict_get_collect_positions _ _ _ []).
  apply dict_get_initial. now apply in_map.
Qed.





(** *** Further properties of the aggregate *)

Lemma expected_entries_In rankings (label_to_model : dict string) a :
  In a (expected_entries rankings label_to_model)
  <-> exists lbl mdl,
        In (lbl, mdl) label_to_model
        /\ positions_of lbl rankings <> []
        /\ a = make_entry lbl mdl (positions_of lbl rankings).
Proof.
  unfold expected_entries. rewrite List.in_flat_map. split.
  - intros ([lbl mdl] & Hin & Ha). cbn [fst snd] in Ha.
    destruct (positions_of lbl rankings) as [|p ps] eqn:Hps; [destruct Ha|].
    destruct Ha as [<-|[]]. exists lbl, mdl. rewrite Hps. now repeat split.
  - intros (lbl & mdl & Hin & Hne & ->). exists (lbl, mdl). split; [exact Hin|].
    cbn [fst snd]. destruct (positions_of lbl rankings); [congruence|now left].
Qed.

(** X1: the aggregate has an entry for a label exactly when the label is a
    key of [label_to_model] and some evaluator ranked it: a response nobody
    ranked is left out (not listed last), and labels the evaluators name
    outside [label_to_model] are ignored.  The entry counts one vote per
    position recorded. *)
Theorem aggregate_rankings_members rankings label_to_model a :
  (In a (calculate_aggregate_rankings rankings label_to_model)
   <-> exists lbl mdl,
         In (lbl, mdl) label_to_model
         /\ positions_of lbl rankings <> []
         /\ a = make_entry lbl mdl (positions_of lbl rankings))
  /\ (In a (calculate_aggregate_rankings rankings label_to_model) ->
      vote_count a = length (positions a) /\ (1 <= vote_count a)%nat)
  /\ (length (calculate_aggregate_rankings rankings label_to_model)
      <= length label_to_model)%nat.
Proof.
  assert (Hmem : In a (calculate_aggregate_rankings rankings label_to_model)
                 <-> In a (expected_entries rankings label_to_model)).
  { unfold calculate_aggregate_rankings. cbv zeta.
    rewrite results_before_sort. apply stable_sort_In. }
  split; [|split].
  - rewrite Hmem. apply expected_entries_In.
  - intros Ha. apply Hmem, expected_entries_In in Ha as (lbl & mdl & _ & Hne & ->).
    cbn. split; [reflexivity|].
    destruct (positions_of lbl rankings); [congruence|cbn; lia].
  - unfold calculate_aggregate_rankings. cbv zeta. rewrite results_before_sort.
    rewrite (Permutation_length (stable_sort_perm _ _)).
    unfold expected_entries. clear Hmem.
    induction label_to_model as [|lm l IH]; cbn; [lia|].
    rewrite List.length_app.
    destruct (positions_of (fst lm) rankings); cbn; lia.
Qed.

(** *** Label mapping *)

Lemma zip_fst_snd {X Y} (xs : list X) (ys : list Y) :
  List.map fst (zip xs ys) = firstn (length ys) xs
  /\ List.map snd (zip xs ys) = firstn (length xs) ys.
Proof.
  revert ys. induction xs as [|x xs IH]; intros [|y ys]; cbn;
    try (split; reflexivity).
  destruct (IH ys) as [-> ->]. split; reflexivity.
Qed.

Lemma ascii_uppercase_NoDup : List.NoDup ascii_uppercase.
Proof.
  unfold ascii_uppercase.
  repeat (constructor; [cbn; intros H; repeat (destruct H as [H|H]; [discriminate|]); exact H|]).
  constructor.
Qed.

Lemma NoDup_firstn {X} n (l : list X) : List.NoDup l -> List.NoDup (firstn n l).
Proof.
  intros H. rewrite <- (List.firstn_skipn n l) in H.
  now apply List.NoDup_app_remove_r in H.
Qed.

Lemma append_injective (p s1 s2 : string) :
  String.append p s1 = String.append p s2 -> s1 = s2.
Proof. induction p as [|c p IH]; cbn; [easy|]. intros [= H]. now apply IH. Qed.

Lemma NoDup_map_append (p : string) (l : list string) :
  List.NoDup l -> List.NoDup (List.map (String.append p) l).
Proof.
  induction 1 as [|x l Hx Hl IH]; cbn; constructor; [|exact IH].
  intros Hin. apply List.in_map_iff in Hin as (y & Hy & Hin).
  apply append_injective in Hy. now subst.
Qed.

(** X2: [_create_label_mapping] labels the first 26 models, in order, with
    [Response A], [Response B], ...: the labels are pairwise distinct, and a
    27th model and those after it get no label. *)
Theorem create_label_mapping_labels models :
  length (_create_label_mapping models) = Nat.min (length models) 26
  /\ List.NoDup (List.map fst (_create_label_mapping models))
  /\ List.map snd (_create_label_mapping models) = firstn 26 models
  /\ List.map fst (_create_label_mapping models)
     = List.map (String.append "Response ")
                (firstn (length models) ascii_uppercase).
Proof.
  unfold _create_label_mapping.
  set (labels := firstn (length models) ascii_uppercase).
  assert (Hlen : length labels = Nat.min (length models) 26)
    by (unfold labels; now rewrite List.length_firstn).
  destruct (zip_fst_snd labels models) as [Hf Hs].
  assert (Hfst : List.map fst
            (List.map (fun lm => (String.append "Response " (fst lm), snd lm))
                      (zip labels models))
          = List.map (String.append "Response ") labels).
  { rewrite List.map_map. cbn [fst]. rewrite <- List.map_map, Hf.
    f_equal. unfold labels. rewrite List.firstn_firstn. f_equal. lia. }
  split; [|split; [|split]].
  - rewrite <- (List.length_map fst), Hfst, List.length_map. exact Hlen.
  - rewrite Hfst. apply NoDup_map_append, NoDup_firstn, ascii_uppercase_NoDup.
  - rewrite List.map_map.
    rewrite (List.map_ext _ snd) by (intros []; reflexivity).
    rewrite Hs, Hlen.
    destruct (Nat.le_ge_cases (length models) 26) as [H|H].
    + rewrite Nat.min_l by exact H.
      rewrite !List.firstn_all2 by lia. reflexivity.
    + now rewrite Nat.min_r by exact H.
  - exact Hfst.
Qed.

(** *** Anonymization *)

(** [d[k] = v] on a dict: an existing key keeps its place. *)
Fixpoint dict_set {V} (k : string) (v : V) (d : dict V) : dict V :=
  match d with
  | [] => [(k, v)]
  | (k', v') :: d' =>
      if String.eqb k' k then (k', v) :: d' else (k', v') :: dict_set k v d'
  end.

(** [{v: k for k, v in label_mapping.items()}] *)
Definition reverse_mapping (label_mapping : dict string) : dict string :=
  List.fold_left (fun d kv => dict_set (snd kv) (fst kv) d) label_mapping [].

Definition newline : string := String (ascii_of_nat 10) EmptyString.

(** The loop over [responses.items()]; [model_to_label[model]] raises
    [KeyError] ([None]) for a model without a label. *)
Fixpoint format_parts (model_to_label : dict string) (responses : dict string)
    : option (list string) :=
  match responses with
  | [] => Some []
  | (mdl, response) :: rest =>
      match dict_get mdl model_to_label with
      | None => None
      | Some lbl =>
          match format_parts model_to_label rest with
          | None => None
          | Some parts =>
              Some (("### " ++ lbl ++ newline ++ newline ++ response ++ newline)%string
                    :: parts)
          end
      end
  end.

(** [_anonymize_responses]; [responses] is the Stage-1 dict, model to text. *)
Definition _anonymize_responses (responses : dict string)
    : option (string * dict string) :=
  let models := List.map fst responses in
  let label_mapping := _create_label_mapping models in
  let model_to_label := reverse_mapping label_mapping in
  match format_parts model_to_label responses with
  | None => None
  | Some formatted_parts => Some (String.concat newline formatted_parts, label_mapping)
  end.

Lemma dict_get_In {V} k (d : dict V) :
  dict_get k d = None <-> ~ In k (List.map fst d).
Proof.
  induction d as [|[k' v] d IH]; cbn; [tauto|].
  destruct (String.eqb k' k) eqn:E.
  - apply String.eqb_eq in E. split; [discriminate|]. intros H. exfalso. apply H. now left.
  - apply String.eqb_neq in E. rewrite IH. tauto.
Qed.

Lemma dict_set_fresh {V} k (v : V) d :
  ~ In k (List.map fst d) -> dict_set k v d = d ++ [(k, v)].
Proof.
  induction d as [|[k' v'] d IH]; cbn; [reflexivity|]. intros H.
  destruct (String.eqb k' k) eqn:E.
  - apply String.eqb_eq in E. tauto.
  - rewrite IH; tauto.
Qed.

Lemma reverse_mapping_keys (label_mapping : dict string) :
  List.NoDup (List.map snd label_mapping) ->
  List.map fst (reverse_mapping label_mapping) = List.map snd label_mapping.
Proof.
  unfold reverse_mapping.
  assert (H : forall acc,
            List.NoDup (List.map fst acc ++ List.map snd label_mapping) ->
            List.map fst
              (List.fold_left (fun d kv => dict_set (snd kv) (fst kv) d)
                              label_mapping acc)
            = List.map fst acc ++ List.map snd label_mapping).
  { induction label_mapping as [|[l m] lm IH]; intros acc Hnd; cbn.
    - now rewrite app_nil_r.
    - cbn in Hnd. rewrite dict_set_fresh.
      + rewrite IH; rewrite List.map_app; cbn; rewrite <- app_assoc; [reflexivity|exact Hnd].
      + apply List.NoDup_remove_2 in Hnd. intros Hin. apply Hnd.
        apply List.in_or_app. now left. }
  intros Hnd. now apply (H []).
Qed.

Lemma format_parts_total model_to_label (responses : dict string) :
  (forall m, In m (List.map fst responses) -> In m (List.map fst model_to_label)) ->
  exists parts, format_parts model_to_label responses = Some parts.
Proof.
  induction responses as [|[m r] rest IH]; intros H; cbn; [eauto|].
  destruct (dict_get m model_to_label) as [lbl|] eqn:E.
  - destruct IH as [parts ->]; [|eauto]. intros m' Hm'. apply H. now right.
  - apply dict_get_In in E. exfalso. apply E, H. now left.
Qed.

Lemma format_parts_missing model_to_label (responses : dict string) m :
  In m (List.map fst responses) -> ~ In m (List.map fst model_to_label) ->
  format_parts model_to_label responses = None.
Proof.
  induction responses as [|[m' r] rest IH]; cbn; [tauto|]. intros [->|Hin] Hmiss.
  - apply dict_get_In in Hmiss. now rewrite Hmiss.
  - destruct (dict_get m' model_to_label); [|reflexivity].
    now rewrite (IH Hin Hmiss).
Qed.

Lemma NoDup_app_disjoint {X} (l1 l2 : list X) x :
  List.NoDup (l1 ++ l2) -> In x l1 -> In x l2 -> False.
Proof.
  induction l1 as [|y l1 IH]; cbn; [tauto|]. intros Hn [->|H1] H2.
  - apply List.NoDup_cons_iff in Hn as [Hx _]. apply Hx, List.in_or_app. now right.
  - apply List.NoDup_cons_iff in Hn as [_ Hn]. now apply IH.
Qed.

(** X3: [_anonymize_responses] labels up to 26 responses and returns the
    formatted text with the label mapping; handed more than 26 responses it
    raises [KeyError], because the models past the 26th have no label. *)
Theorem anonymize_responses_at_most_26 (responses : dict string) :
  List.NoDup (List.map fst responses) ->
  ((length responses <= 26)%nat ->
     exists text,
       _anonymize_responses responses
       = Some (text, _create_label_mapping (List.map fst responses)))
  /\ ((26 < length responses)%nat -> _anonymize_responses responses = None).
Proof.
  intros Hnd. unfold _anonymize_responses. cbv zeta.
  set (models := List.map fst responses) in *.
  destruct (create_label_mapping_labels models) as (_ & _ & Hsnd & _).
  assert (Hkeys : List.map fst (reverse_mapping (_create_label_mapping models))
                  = firstn 26 models).
  { rewrite reverse_mapping_keys; rewrite Hsnd; [reflexivity|].
    now apply NoDup_firstn. }
  split; intros Hlen.
  - destruct (format_parts_total
                (reverse_mapping (_create_label_mapping models)) responses)
      as [parts ->]; [|eauto].
    rewrite Hkeys. fold models. intros m Hm.
    rewrite List.firstn_all2; [exact Hm|].
    unfold models. rewrite List.length_map. exact Hlen.
  - assert (Hex : exists m, In m (skipn 26 models)).
    { destruct (skipn 26 models) as [|m rest] eqn:E; [|exists m; now left].
      apply (f_equal (@length string)) in E. rewrite List.length_skipn in E.
      unfold models in E. rewrite List.length_map in E. cbn in E. lia. }
    destruct Hex as [m Hm].
    rewrite (format_parts_missing _ responses m); [reflexivity| |].
    + fold models. rewrite <- (List.firstn_skipn 26 models).
      apply List.in_or_app. now right.
    + rewrite Hkeys. intros Hin.
      apply (NoDup_app_disjoint (firstn 26 models) (skipn 26 models) m);
        [rewrite List.firstn_skipn; exact Hnd|exact Hin|exact Hm].
Qed.

(** The theorem at three responses. *)
Lemma anonymize_responses_at_most_26_witness :
  exists text,
    _anonymize_responses [("claude", "a"); ("codex", "b"); ("gemini", "c")]%string
    = Some (text, seed_label_to_model).
Proof.
  apply (anonymize_responses_at_most_26
           [("claude", "a"); ("codex", "b"); ("gemini", "c")]%string).
  - cbn. repeat (constructor; [cbn; intros H; repeat (destruct H as [H|H]; [discriminate|]); exact H|]).
    constructor.
  - cbn. lia.
Defined.

End Council.

(** [str(n)] for an integer. *)
Definition show_int (z : Z) : string := NilZero.string_of_int (Z.to_int z).

(** ** Council providers: prompt clean-up for Gemini ([backend/cli_providers.py]) *)

Module Providers.

(** A Python [str] as the list of its code points, so that [strip] sees the
    white space of Unicode as Python does. *)
Definition text := list Z.

(** [str.isspace] on one character. *)
Definition is_space (c : Z) : bool :=
  ((9 <=? c) && (c <=? 13)) || ((28 <=? c) && (c <=? 32))
  || (c =? 0x85) || (c =? 0xa0) || (c =? 0x1680)
  || ((0x2000 <=? c) && (c <=? 0x200a))
  || (c =? 0x2028) || (c =? 0x2029) || (c =? 0x202f) || (c =? 0x205f)
  || (c =? 0x3000).

(** [prompt.split('\n')]: never empty, the empty text gives one empty line. *)
Fixpoint split_lines (s : text) : list text :=
  match s with
  | [] => [[]]
  | c :: rest =>
      if c =? 10 then [] :: split_lines rest
      else match split_lines rest with
           | line :: lines => (c :: line) :: lines
           | [] => [[c]]
           end
  end.

(** ['\n'.join(lines)] *)
Fixpoint join_lines (lines : list text) : text :=
  match lines with
  | [] => []
  | [line] => line
  | line :: rest => line ++ 10 :: join_lines rest
  end.

Fixpoint lstrip (s : text) : text :=
  match s with
  | c :: rest => if is_space c then lstrip rest else s
  | [] => []
  end.

(** [line.strip()] *)
Definition strip (s : text) : text := List.rev (lstrip (List.rev (lstrip s))).

(** [line.strip().startswith('/') and '.' in line] *)
Definition looks_like_path (line : text) : bool :=
  match strip line with
  | c :: _ => c =? 47
  | [] => false
  end
  && List.existsb (fun c => c =? 46) line.

Definition _transform_gemini_prompt (prompt : text) : text :=
  join_lines (List.filter (fun line => negb (looks_like_path line)) (split_lines prompt)).

Definition no_newline (line : text) : Prop := ~ In 10 line.

Lemma split_lines_nonempty s : split_lines s <> [].
Proof.
  destruct s as [|c rest]; cbn; [discriminate|].
  destruct (c =? 10); [discriminate|]. now destruct (split_lines rest).
Qed.

Lemma split_lines_no_newline s : List.Forall no_newline (split_lines s).
Proof.
  induction s as [|c rest IH]; cbn.
  - constructor; [intros []|constructor].
  - destruct (c =? 10) eqn:E.
    + constructor; [intros []|exact IH].
    + destruct (split_lines rest) as [|line lines]; [repeat constructor; intros [H|[]]; lia|].
      apply List.Forall_cons_iff in IH as [Hl Hls]. constructor; [|exact Hls].
      intros [H|H]; [lia|now apply Hl].
Qed.

Lemma join_split s : join_lines (split_lines s) = s.
Proof.
  induction s as [|c rest IH]; [reflexivity|]. cbn.
  destruct (c =? 10) eqn:E.
  - apply Z.eqb_eq in E. subst c.
    pose proof (split_lines_nonempty rest) as Hne.
    cbn. destruct (split_lines rest) as [|l ls]; [congruence|].
    now rewrite <- IH.
  - pose proof (split_lines_nonempty rest) as Hne.
    destruct (split_lines rest) as [|l ls]; [congruence|].
    rewrite <- IH. cbn. now destruct ls.
Qed.

Lemma split_line line : no_newline line -> split_lines line = [line].
Proof.
  induction line as [|c rest IH]; intros H; [reflexivity|]. cbn.
  destruct (c =? 10) eqn:E; [exfalso; apply H; left; lia|].
  rewrite IH; [reflexivity|]. intros Hin. apply H. now right.
Qed.

Lemma split_app_newline line rest :
  no_newline line -> split_lines (line ++ 10 :: rest) = line :: split_lines rest.
Proof.
  induction line as [|c l IH]; intros H; [reflexivity|]. cbn.
  destruct (c =? 10) eqn:E; [exfalso; apply H; left; lia|].
  rewrite IH; [reflexivity|]. intros Hin. apply H. now right.
Qed.

Lemma split_join lines :
  lines <> [] -> List.Forall no_newline lines -> split_lines (join_lines lines) = lines.
Proof.
  induction lines as [|line rest IH]; [congruence|]. intros _ H.
  apply List.Forall_cons_iff in H as [Hl Hrest].
  destruct rest as [|line2 rest]; [now apply split_line|].
  change (join_lines (line :: line2 :: rest))
    with (line ++ 10 :: join_lines (line2 :: rest)).
  rewrite split_app_newline by exact Hl. f_equal. now apply IH.
Qed.

Lemma filter_all {X} (p : X -> bool) l :
  List.filter p l = l <-> List.Forall (fun x => p x = true) l.
Proof.
  induction l as [|x l IH]; cbn; [split; [constructor|reflexivity]|].
  destruct (p x) eqn:E.
  - split.
    + intros [= H]. constructor; [exact E|now apply IH].
    + intros H. apply List.Forall_cons_iff in H as [_ H]. f_equal. now apply IH.
  - split.
    + intros H. exfalso.
      assert (Hlen : (length (List.filter p l) <= length l)%nat) by apply List.filter_length_le.
      rewrite H in Hlen. cbn in Hlen. lia.
    + intros H. apply List.Forall_cons_iff in H as [H _]. congruence.
Qed.

(** The lines of the cleaned prompt are the lines of the prompt that do not
    look like a path; when none is left, the one empty line of [""]. *)
Lemma transform_lines prompt :
  let kept := List.filter (fun line => negb (looks_like_path line))
                          (split_lines prompt) in
  split_lines (_transform_gemini_prompt prompt)
  = match kept with [] => [[]] | _ => kept end.
Proof.
  cbv zeta. unfold _transform_gemini_prompt.
  destruct (List.filter _ (split_lines prompt)) as [|l ls] eqn:E; [reflexivity|].
  apply split_join; [discriminate|]. rewrite <- E.
  apply List.Forall_forall. intros line Hin. apply List.filter_In in Hin as [Hin _].
  pose proof (split_lines_no_newline prompt) as H.
  rewrite List.Forall_forall in H. now apply H.
Qed.

(** X4: cleaning a prompt for Gemini leaves no line that looks like a path
    (first non-blank character [/], and a [.] somewhere in the line); it
    changes the prompt exactly when some line looks like a path; and cleaning
    twice is cleaning once. *)
Theorem transform_gemini_prompt_removes_paths prompt :
  List.Forall (fun line => looks_like_path line = false)
              (split_lines (_transform_gemini_prompt prompt))
  /\ (_transform_gemini_prompt prompt = prompt
      <-> List.Forall (fun line => looks_like_path line = false)
                      (split_lines prompt))
  /\ _transform_gemini_prompt (_transform_gemini_prompt prompt)
     = _transform_gemini_prompt prompt.
Proof.
  assert (Hclean : List.Forall (fun line => looks_like_path line = false)
                     (split_lines (_transform_gemini_prompt prompt))).
  { pose proof (transform_lines prompt) as H. cbv zeta in H. rewrite H.
    destruct (List.filter _ (split_lines prompt)) as [|l ls] eqn:E.
    - repeat constructor.
    - rewrite <- E. apply List.Forall_forall. intros line Hin.
      apply List.filter_In in Hin as [_ Hin]. now apply negb_true_iff. }
  assert (Hfix : forall s,
            List.Forall (fun line => looks_like_path line = false) (split_lines s) ->
            _transform_gemini_prompt s = s).
  { intros s H. unfold _transform_gemini_prompt.
    assert (Hf : List.filter (fun line => negb (looks_like_path line)) (split_lines s)
                 = split_lines s).
    { apply filter_all. eapply List.Forall_impl; [|exact H].
      intros line Hl. cbn. now rewrite Hl. }
    rewrite Hf. apply join_split. }
  split; [exact Hclean|]. split; [|now apply Hfix].
  split; [|apply Hfix]. intros H. rewrite <- H. exact Hclean.
Qed.

(** A prompt with a path-like second line. *)
Example transform_gemini_prompt_example :
  _transform_gemini_prompt [104; 105; 10; 32; 47; 97; 46; 98; 10; 111; 107]
  = [104; 105; 10; 111; 107].
Proof. reflexivity. Qed.

End Providers.

(** ** SAFLA: hash-based pseudo-embeddings ([safla-mcp/server.py]) *)

Module Safla.

(** *** SHA-512 (FIPS 180-4), as [hashlib.sha512(...).digest()] computes it.
    Bytes are integers in [0, 256), words are integers in [0, 2^64). *)

Definition w64 (x : Z) : Z := x mod 2 ^ 64.
Definition add64 (x y : Z) : Z := w64 (x + y).
Definition rotr (n x : Z) : Z := Z.lor (Z.shiftr x n) (w64 (Z.shiftl x (64 - n))).
Definition not64 (x : Z) : Z := Z.lxor x (2 ^ 64 - 1).

Definition Ch (x y z : Z) : Z := Z.lxor (Z.land x y) (Z.land (not64 x) z).
Definition Maj (x y z : Z) : Z :=
  Z.lxor (Z.lxor (Z.land x y) (Z.land x z)) (Z.land y z).
Definition Sigma0 (x : Z) : Z := Z.lxor (Z.lxor (rotr 28 x) (rotr 34 x)) (rotr 39 x).
Definition Sigma1 (x : Z) : Z := Z.lxor (Z.lxor (rotr 14 x) (rotr 18 x)) (rotr 41 x).
Definition sigma0 (x : Z) : Z := Z.lxor (Z.lxor (rotr 1 x) (rotr 8 x)) (Z.shiftr x 7).
Definition sigma1 (x : Z) : Z := Z.lxor (Z.lxor (rotr 19 x) (rotr 61 x)) (Z.shiftr x 6).

Definition K512 : list Z :=
  [
   0x428a2f98d728ae22; 0x7137449123ef65cd; 0xb5c0fbcfec4d3b2f; 0xe9b5dba58189dbbc;
   0x3956c25bf348b538; 0x59f111f1b605d019; 0x923f82a4af194f9b; 0xab1c5ed5da6d8118;
   0xd807aa98a3030242; 0x12835b0145706fbe; 0x243185be4ee4b28c; 0x550c7dc3d5ffb4e2;
   0x72be5d74f27b896f; 0x80deb1fe3b1696b1; 0x9bdc06a725c71235; 0xc19bf174cf692694;
   0xe49b69c19ef14ad2; 0xefbe4786384f25e3; 0x0fc19dc68b8cd5b5; 0x240ca1cc77ac9c65;
   0x2de92c6f592b0275; 0x4a7484aa6ea6e483; 0x5cb0a9dcbd41fbd4; 0x76f988da831153b5;
   0x983e5152ee66dfab; 0xa831c66d2db43210; 0xb00327c898fb213f; 0xbf597fc7beef0ee4;
   0xc6e00bf33da88fc2; 0xd5a79147930aa725; 0x06ca6351e003826f; 0x142929670a0e6e70;
   0x27b70a8546d22ffc; 0x2e1b21385c26c926; 0x4d2c6dfc5ac42aed; 0x53380d139d95b3df;
   0x650a73548baf63de; 0x766a0abb3c77b2a8; 0x81c2c92e47edaee6; 0x92722c851482353b;
   0xa2bfe8a14cf10364; 0xa81a664bbc423001; 0xc24b8b70d0f89791; 0xc76c51a30654be30;
   0xd192e819d6ef5218; 0xd69906245565a910; 0xf40e35855771202a; 0x106aa07032bbd1b8;
   0x19a4c116b8d2d0c8; 0x1e376c085141ab53; 0x2748774cdf8eeb99; 0x34b0bcb5e19b48a8;
   0x391c0cb3c5c95a63; 0x4ed8aa4ae3418acb; 0x5b9cca4f7763e373; 0x682e6ff3d6b2b8a3;
   0x748f82ee5defb2fc; 0x78a5636f43172f60; 0x84c87814a1f0ab72; 0x8cc702081a6439ec;
   0x90befffa23631e28; 0xa4506cebde82bde9; 0xbef9a3f7b2c67915; 0xc67178f2e372532b;
   0xca273eceea26619c; 0xd186b8c721c0c207; 0xeada7dd6cde0eb1e; 0xf57d4f7fee6ed178;
   0x06f067aa72176fba; 0x0a637dc5a2c898a6; 0x113f9804bef90dae; 0x1b710b35131c471b;
   0x28db77f523047d84; 0x32caab7b40c72493; 0x3c9ebe0a15c9bebc; 0x431d67c49c100d4c;
   0x4cc5d4becb3e42b6; 0x597f299cfc657e2a; 0x5fcb6fab3ad6faec; 0x6c44198c4a475817 ].

Record hash_state := {
  h0 : Z; h1 : Z; h2 : Z; h3 : Z; h4 : Z; h5 : Z; h6 : Z; h7 : Z
}.

Definition initial_hash : hash_state :=
  {| h0 := 0x6a09e667f3bcc908; h1 := 0xbb67ae8584caa73b;
     h2 := 0x3c6ef372fe94f82b; h3 := 0xa54ff53a5f1d36f1;
     h4 := 0x510e527fade682d1; h5 := 0x9b05688c2b3e6c1f;
     h6 := 0x1f83d9abfb41bd6b; h7 := 0x5be0cd19137e2179 |}.

(** Message padding: 0x80, zeros up to 112 mod 128, the bit length on 16 bytes. *)
Definition be_bytes (n : nat) (x : Z) : list Z :=
  List.map (fun i => Z.land (Z.shiftr x (8 * Z.of_nat i)) 255) (List.rev (List.seq 0 n)).

Definition pad (msg : list Z) : list Z :=
  let len := Z.of_nat (length msg) in
  let zeros := Z.to_nat ((111 - len) mod 128) in
  msg ++ [128] ++ List.repeat 0 zeros ++ be_bytes 16 (8 * len).

Definition be_word (bs : list Z) : Z :=
  List.fold_left (fun acc b => acc * 256 + b) bs 0.

(** Successive groups of [size] elements; [n] bounds the number of groups. *)
Fixpoint chunks {X} (n size : nat) (l : list X) : list (list X) :=
  match n, l with
  | O, _ | _, [] => []
  | S n', _ => firstn size l :: chunks n' size (skipn size l)
  end.

(** The message schedule, latest word first: [ws] holds W[t-1], W[t-2], ... *)
Fixpoint extend_schedule (n : nat) (ws : list Z) : list Z :=
  match n with
  | O => ws
  | S n' =>
      let w := add64 (add64 (sigma1 (nth 1 ws 0)) (nth 6 ws 0))
                     (add64 (sigma0 (nth 14 ws 0)) (nth 15 ws 0)) in
      extend_schedule n' (w :: ws)
  end.

Definition schedule (block : list Z) : list Z :=
  List.rev (extend_schedule 64 (List.rev (List.map be_word (chunks 16 8 block)))).

Definition round (s : hash_state) (kw : Z * Z) : hash_state :=
  let t1 := add64 (add64 (add64 (h7 s) (Sigma1 (h4 s)))
                         (add64 (Ch (h4 s) (h5 s) (h6 s)) (fst kw))) (snd kw) in
  let t2 := add64 (Sigma0 (h0 s)) (Maj (h0 s) (h1 s) (h2 s)) in
  {| h0 := add64 t1 t2; h1 := h0 s; h2 := h1 s; h3 := h2 s;
     h4 := add64 (h3 s) t1; h5 := h4 s; h6 := h5 s; h7 := h6 s |}.

Definition compress (s : hash_state) (block : list Z) : hash_state :=
  let r := List.fold_left round (List.combine K512 (schedule block)) s in
  {| h0 := add64 (h0 s) (h0 r); h1 := add64 (h1 s) (h1 r);
     h2 := add64 (h2 s) (h2 r); h3 := add64 (h3 s) (h3 r);
     h4 := add64 (h4 s) (h4 r); h5 := add64 (h5 s) (h5 r);
     h6 := add64 (h6 s) (h6 r); h7 := add64 (h7 s) (h7 r) |}.

Definition digest_of (s : hash_state) : list Z :=
  List.flat_map (be_bytes 8) [h0 s; h1 s; h2 s; h3 s; h4 s; h5 s; h6 s; h7 s].

Definition sha512 (msg : list Z) : list Z :=
  let padded := pad msg in
  digest_of (List.fold_left compress (chunks (length padded) 128 padded) initial_hash).

(** [text.encode()]: a text is given by its UTF-8 bytes, one per character of
    the string. *)
Definition encode (text : string) : list Z :=
  List.map (fun c => Z.of_nat (nat_of_ascii c)) (list_ascii_of_string text).

(** The sentence-transformers model, when one is installed: its [encode]. *)
Definition embedding_model := list string -> list (list float).

(** [generate_local_embeddings]; [model] is what [get_embedding_model()]
    returns. *)
Definition generate_local_embeddings (model : option embedding_model)
    (texts : list string) : list (list float) :=
  match model with
  | None =>
      List.map
        (fun text =>
           let hash_bytes := sha512 (encode text) in
           List.map (fun b => PrimFloat.div (float_of_Z b) 255%float)
                    (firstn 384 hash_bytes))
        texts
  | Some m => m texts
  end.

Lemma be_bytes_length n x : length (be_bytes n x) = n.
Proof. unfold be_bytes. now rewrite List.length_map, List.length_rev, List.length_seq. Qed.

Lemma sha512_length msg : length (sha512 msg) = 64%nat.
Proof.
  unfold sha512, digest_of. cbn [List.flat_map].
  rewrite !List.length_app, !be_bytes_length. reflexivity.
Qed.

(** C2 (what the code does): without an embedding model every text gets one
    component per byte of its SHA-512 digest, [byte / 255.0]; the digest has 64
    bytes, so [hash_bytes[:384]] keeps all of them and the vector has 64
    components, not 384. *)
Theorem fallback_embedding_has_64_components texts :
  generate_local_embeddings None texts
  = List.map (fun text =>
                List.map (fun b => PrimFloat.div (float_of_Z b) 255%float)
                         (sha512 (encode text)))
             texts
  /\ List.Forall (fun e => length e = 64%nat /\ length e <> 384%nat)
                 (generate_local_embeddings None texts).
Proof.
  assert (Hcut : forall text, firstn 384 (sha512 (encode text)) = sha512 (encode text)).
  { intros text. apply List.firstn_all2. rewrite sha512_length. lia. }
  split.
  - unfold generate_local_embeddings. apply List.map_ext. intros text.
    now rewrite Hcut.
  - unfold generate_local_embeddings. apply List.Forall_forall. intros e He.
    apply List.in_map_iff in He as [text [<- _]].
    rewrite Hcut, List.length_map, sha512_length. split; [reflexivity|lia].
Qed.

(** The digest of the three bytes of "abc" (the test vector of FIPS 180-4)
    and the first components of its embedding. *)
Example sha512_abc :
  firstn 8 (sha512 (encode "abc")) = [221; 175; 53; 161; 147; 97; 122; 186].
Proof. vm_compute. reflexivity. Qed.

Example fallback_embedding_abc :
  List.map (@length float) (generate_local_embeddings None ["abc"%string]) = [64%nat].
Proof. vm_compute. reflexivity. Qed.

(** *** Range of the fallback embedding *)

Lemma be_bytes_range n x b : In b (be_bytes n x) -> 0 <= b <= 255.
Proof.
  unfold be_bytes. intros H. apply List.in_map_iff in H as (i & <- & _).
  change 255 with (Z.ones 8). rewrite Z.land_ones by lia.
  change (2 ^ 8) with 256. change (Z.ones 8) with 255.
  pose proof (Z.mod_pos_bound (Z.shiftr x (8 * Z.of_nat i)) 256 eq_refl). lia.
Qed.

Lemma sha512_bytes msg b : In b (sha512 msg) -> 0 <= b <= 255.
Proof.
  unfold sha512, digest_of. intros H.
  apply List.in_flat_map in H as (w & _ & H). eapply be_bytes_range, H.
Qed.

Definition unit_component (x : float) : bool :=
  PrimFloat.leb 0%float x && PrimFloat.leb x 1%float.

Lemma byte_component_unit b :
  0 <= b <= 255 -> unit_component (PrimFloat.div (float_of_Z b) 255%float) = true.
Proof.
  intros Hb.
  assert (Hall : List.forallb
            (fun n => unit_component
                        (PrimFloat.div (float_of_Z (Z.of_nat n)) 255%float))
            (List.seq 0 256) = true) by (vm_compute; reflexivity).
  rewrite List.forallb_forall in Hall.
  specialize (Hall (Z.to_nat b)). rewrite Z2Nat.id in Hall by lia.
  apply Hall, List.in_seq. lia.
Qed.

(** X5: without an embedding model, every component of every vector that
    [generate_local_embeddings] returns is a float between 0.0 and 1.0. *)
Theorem fallback_embedding_in_unit_interval texts :
  List.Forall (List.Forall (fun x => unit_component x = true))
              (generate_local_embeddings None texts).
Proof.
  unfold generate_local_embeddings. apply List.Forall_forall. intros e He.
  apply List.in_map_iff in He as (text & <- & _).
  apply List.Forall_forall. intros x Hx.
  apply List.in_map_iff in Hx as (b & <- & Hb).
  apply byte_component_unit. apply (sha512_bytes (encode text)).
  rewrite <- (List.firstn_skipn 384 (sha512 (encode text))).
  apply List.in_or_app. now left.
Qed.

End Safla.

(** ** Agent runtime ([agent-runtime-mcp/server.py]) *)

Module Runtime.

(** *** Task queue *)

(** A row of [tasks].  [status] is free text in the table, as in the source;
    [dependencies] is the JSON list of task ids, or NULL. *)
Record task := {
  task_id : Z;
  goal_id : option Z;
  title : string;
  description : option string;
  task_status : string;
  priority : Z;
  result : option string;
  error : option string;
  dependencies : option (list Z);
  created_at : Z;
  updated_at : Z;
  started_at : option Z;
  completed_at : option Z
}.

(** What [get_next_task] returns for the task it hands out. *)
Record next_task := {
  nt_task_id : Z;
  nt_title : string;
  nt_description : option string;
  nt_goal_id : option Z;
  nt_priority : Z
}.

Definition view (t : task) : next_task :=
  {| nt_task_id := task_id t; nt_title := title t; nt_description := description t;
     nt_goal_id := goal_id t; nt_priority := priority t |}.

(** [SELECT status FROM tasks WHERE id = ?] followed by [fetchone()]. *)
Definition select_task (tasks : list task) (id : Z) : option task :=
  List.find (fun t => task_id t =? id) tasks.

(** [ORDER BY priority DESC, created_at ASC] *)
Definition queue_order (a b : task) : bool :=
  (priority b <? priority a)
  || ((priority a =? priority b) && (created_at a <? created_at b)).

Definition is_pending (t : task) : bool := String.eqb (task_status t) "pending".

(** The inner loop over [deps]: every dependency exists and is [completed]. *)
Definition deps_met (tasks : list task) (row : task) : bool :=
  List.forallb
    (fun dep_id =>
       match select_task tasks dep_id with
       | Some dep => String.eqb (task_status dep) "completed"
       | None => false
       end)
    (default [] (dependencies row)).

(** [UPDATE tasks SET status = 'in_progress', started_at = CURRENT_TIMESTAMP
    WHERE id = ?] *)
Definition start_task (now id : Z) (t : task) : task :=
  if task_id t =? id then
    {| task_id := task_id t; goal_id := goal_id t; title := title t;
       description := description t; task_status := "in_progress";
       priority := priority t; result := result t; error := error t;
       dependencies := dependencies t; created_at := created_at t;
       updated_at := updated_at t; started_at := Some now;
       completed_at := completed_at t |}
  else t.

Definition get_next_task (now : Z) (tasks : list task) : list task * option next_task :=
  let rows := stable_sort queue_order (List.filter is_pending tasks) in
  match List.find (deps_met tasks) rows with
  | Some row => (List.map (start_task now (task_id row)) tasks, Some (view row))
  | None => (tasks, None)
  end.











Lemma start_task_other now id u : task_id u <> id -> start_task now id u = u.
Proof. intros H. unfold start_task. now apply Z.eqb_neq in H as ->. Qed.



(** The dependency scenario of the specification: T1 (priority 9) and T2
    (priority 10, depending on T1).  T1 is served first although T2 has the
    higher priority. *)
Definition new_task (id prio : Z) (deps : list Z) (created : Z) : task :=
  {| task_id := id; goal_id := None; title := ""; description := None;
     task_status := "pending"; priority := prio; result := None; error := None;
     dependencies := Some deps; created_at := created; updated_at := created;
     started_at := None; completed_at := None |}.

Example get_next_task_gating :
  option_map nt_task_id
    (snd (get_next_task 5 [new_task 1 9 [] 0; new_task 2 10 [1] 0])) = Some 1.
Proof. reflexivity. Qed.

(** *** Relay pipelines *)

(** The baton stored on the pipeline ([json.dumps] of a dict). *)
Record baton := {
  previous_step : Z;
  baton_quality_score : float;
  baton_l_score : float;
  baton_output_entity_id : Z;
  summary : option string
}.

(** A row of [relay_pipelines], keyed by its [id]. *)
Record relay_pipeline := {
  pipeline_name : string;
  pipeline_goal : string;
  pipeline_description : option string;
  agent_types : list string;
  pipeline_status : string;
  current_step : Z;
  token_budget : Z;
  pipeline_tokens_used : Z;
  baton_data : option baton;
  pipeline_created_at : Z;
  pipeline_completed_at : option Z
}.

(** A row of [relay_steps]. *)
Record relay_step := {
  step_pipeline_id : string;
  step_index : Z;
  agent_type : string;
  step_status : string;
  quality_score : option float;
  l_score : option float;
  output_entity_id : option Z;
  step_tokens_used : Z;
  step_started_at : option Z;
  step_completed_at : option Z
}.

Record relay_db := {
  relay_pipelines : gmap string relay_pipeline;
  relay_steps : list relay_step
}.

Definition empty_relay_db : relay_db :=
  {| relay_pipelines := ∅; relay_steps := [] |}.

(** [for i, agent_type in enumerate(agent_types)]: the step rows of a new
    pipeline, with the column defaults of [relay_steps]. *)
Fixpoint new_steps (pipeline_id : string) (i : Z) (types : list string) : list relay_step :=
  match types with
  | [] => []
  | ty :: rest =>
      {| step_pipeline_id := pipeline_id; step_index := i; agent_type := ty;
         step_status := "pending"; quality_score := None; l_score := None;
         output_entity_id := None; step_tokens_used := 0;
         step_started_at := None; step_completed_at := None |}
      :: new_steps pipeline_id (i + 1) rest
  end.

(** [create_relay_pipeline].  [pipeline_id] is the fresh [uuid4()[:8]] the
    call draws; on an id that is already taken the INSERT violates the primary
    key and the call raises ([None]).  The row gets the column defaults
    [status = 'pending'], [current_step = 0], [tokens_used = 0]. *)
Definition create_relay_pipeline (now : Z) (pipeline_id name goal : string)
    (types : list string) (descr : option string) (budget : Z)
    (db : relay_db) : option relay_db :=
  match relay_pipelines db !! pipeline_id with
  | Some _ => None
  | None =>
      Some {| relay_pipelines :=
                <[pipeline_id :=
                    {| pipeline_name := name; pipeline_goal := goal;
                       pipeline_description := descr; agent_types := types;
                       pipeline_status := "pending"; current_step := 0;
                       token_budget := budget; pipeline_tokens_used := 0;
                       baton_data := None; pipeline_created_at := now;
                       pipeline_completed_at := None |}]>
                  (relay_pipelines db);
              relay_steps := relay_steps db ++ new_steps pipeline_id 0 types |}
  end.

(** What [advance_relay] returns ([handoff_time_ms], a wall-clock
    measurement, is left out). *)
Inductive advance_reply :=
| AdvanceError (message : string)
| AdvanceCompleted (pipeline_id : string) (status : string) (total_tokens : Z)
| AdvanceInProgress (pipeline_id : string) (status : string) (current : Z)
    (next_agent : string) (tokens_remaining : Z).

Definition reply_status (r : advance_reply) : option string :=
  match r with
  | AdvanceError _ => None
  | AdvanceCompleted _ s _ => Some s
  | AdvanceInProgress _ s _ _ _ => Some s
  end.

(** [UPDATE relay_steps SET status = 'completed', ... WHERE pipeline_id = ?
    AND step_index = ?] *)
Definition complete_step (now : Z) (pipeline_id : string) (idx : Z)
    (q l : float) (entity tokens : Z) (s : relay_step) : relay_step :=
  if String.eqb (step_pipeline_id s) pipeline_id && (step_index s =? idx) then
    {| step_pipeline_id := step_pipeline_id s; step_index := step_index s;
       agent_type := agent_type s; step_status := "completed";
       quality_score := Some q; l_score := Some l; output_entity_id := Some entity;
       step_tokens_used := tokens; step_started_at := step_started_at s;
       step_completed_at := Some now |}
  else s.

(** [UPDATE relay_steps SET status = 'in_progress', started_at = ... WHERE
    pipeline_id = ? AND step_index = ?] *)
Definition begin_step (now : Z) (pipeline_id : string) (idx : Z)
    (s : relay_step) : relay_step :=
  if String.eqb (step_pipeline_id s) pipeline_id && (step_index s =? idx) then
    {| step_pipeline_id := step_pipeline_id s; step_index := step_index s;
       agent_type := agent_type s; step_status := "in_progress";
       quality_score := quality_score s; l_score := l_score s;
       output_entity_id := output_entity_id s;
       step_tokens_used := step_tokens_used s; step_started_at := Some now;
       step_completed_at := step_completed_at s |}
  else s.

(** [agent_types[new_step]] for [0 <= new_step < len(agent_types)]. *)
Definition agent_at (types : list string) (i : Z) : string :=
  nth (Z.to_nat i) types ""%string.

Definition advance_relay (now : Z) (pipeline_id : string) (q l : float)
    (entity tokens : Z) (output_summary : option string)
    (db : relay_db) : relay_db * advance_reply :=
  match relay_pipelines db !! pipeline_id with
  | None =>
      (db, AdvanceError ("Pipeline " ++ pipeline_id ++ " not found"))
  | Some pipeline =>
      let step := current_step pipeline in
      let steps1 :=
        List.map (complete_step now pipeline_id step q l entity tokens)
                 (relay_steps db) in
      let new_step := step + 1 in
      let new_tokens := pipeline_tokens_used pipeline + tokens in
      if Z.of_nat (length (agent_types pipeline)) <=? new_step then
        ({| relay_pipelines :=
              <[pipeline_id :=
                  {| pipeline_name := pipeline_name pipeline;
                     pipeline_goal := pipeline_goal pipeline;
                     pipeline_description := pipeline_description pipeline;
                     agent_types := agent_types pipeline;
                     pipeline_status := "completed";
                     current_step := new_step;
                     token_budget := token_budget pipeline;
                     pipeline_tokens_used := new_tokens;
                     baton_data := baton_data pipeline;
                     pipeline_created_at := pipeline_created_at pipeline;
                     pipeline_completed_at := Some now |}]>
                (relay_pipelines db);
            relay_steps := steps1 |},
         AdvanceCompleted pipeline_id "completed" new_tokens)
      else
        ({| relay_pipelines :=
              <[pipeline_id :=
                  {| pipeline_name := pipeline_name pipeline;
                     pipeline_goal := pipeline_goal pipeline;
                     pipeline_description := pipeline_description pipeline;
                     agent_types := agent_types pipeline;
                     pipeline_status := pipeline_status pipeline;
                     current_step := new_step;
                     token_budget := token_budget pipeline;
                     pipeline_tokens_used := new_tokens;
                     baton_data :=
                       Some {| previous_step := step; baton_quality_score := q;
                               baton_l_score := l;
                               baton_output_entity_id := entity;
                               summary := output_summary |};
                     pipeline_created_at := pipeline_created_at pipeline;
                     pipeline_completed_at := pipeline_completed_at pipeline |}]>
                (relay_pipelines db);
            relay_steps := List.map (begin_step now pipeline_id new_step) steps1 |},
         AdvanceInProgress pipeline_id "in_progress" new_step
           (agent_at (agent_types pipeline) new_step)
           (token_budget pipeline - new_tokens))
  end.

(** The status column of a pipeline, as [get_relay_status] and
    [list_relay_pipelines] read it. *)
Definition stored_status (db : relay_db) (pipeline_id : string) : option string :=
  pipeline_status <$> relay_pipelines db !! pipeline_id.

(** An advance that does not complete the pipeline writes [current_step],
    [tokens_used] and [baton_data] only: the status column keeps its value,
    while the reply says [in_progress]. *)
Lemma advance_relay_status_unchanged now id q l entity tokens smry db pipeline :
  relay_pipelines db !! id = Some pipeline ->
  current_step pipeline + 1 < Z.of_nat (length (agent_types pipeline)) ->
  stored_status (fst (advance_relay now id q l entity tokens smry db)) id
  = Some (pipeline_status pipeline)
  /\ reply_status (snd (advance_relay now id q l entity tokens smry db))
     = Some "in_progress"%string.
Proof.
  intros Hp Hlt. unfold advance_relay. rewrite Hp. cbv zeta.
  destruct (Z.of_nat (length (agent_types pipeline)) <=? current_step pipeline + 1)
    eqn:Hle; [lia|].
  split; [|reflexivity].
  unfold stored_status. cbn [fst relay_pipelines].
  now rewrite lookup_insert_eq.
Qed.

(** The relay scenario of the specification: a pipeline over the agents
    [r], [a], [s] with a budget of 1000 tokens. *)
Definition seed_relay_db : option relay_db :=
  create_relay_pipeline 0 "p1" "demo" "goal" ["r"; "a"; "s"]%string None 1000
    empty_relay_db.

(** C3 (what the code does): after the first [advance_relay] on a freshly
    created three-step pipeline the reply says [in_progress], step 1, next
    agent [a], 900 tokens left, but the stored status of the pipeline is still
    [pending]: the UPDATE of the non-completing branch does not set it. *)
Theorem advance_relay_leaves_status_pending :
  match seed_relay_db with
  | Some db =>
      stored_status db "p1" = Some "pending"%string
      /\ snd (advance_relay 1 "p1" 0.5 0.5 42 100 (Some "ok"%string) db)
         = AdvanceInProgress "p1" "in_progress" 1 "a" 900
      /\ stored_status
           (fst (advance_relay 1 "p1" 0.5 0.5 42 100 (Some "ok"%string) db)) "p1"
         = Some "pending"%string
  | None => False
  end.
Proof. vm_compute. repeat split. Qed.

(** *** Circuit breakers *)

(** A row of [circuit_breakers], keyed by [agent_id]. *)
Record circuit_breaker := {
  state : string;
  failure_count : Z;
  last_failure_at : option Z;
  last_success_at : option Z;
  opened_at : option Z;
  failure_threshold : Z;
  window_seconds : Z;
  cooldown_seconds : Z;
  fallback_agent : string
}.

(** [INSERT INTO circuit_breakers (agent_id) VALUES (?)]: the column defaults. *)
Definition default_breaker : circuit_breaker :=
  {| state := "closed"; failure_count := 0; last_failure_at := None;
     last_success_at := None; opened_at := None; failure_threshold := 5;
     window_seconds := 60; cooldown_seconds := 300;
     fallback_agent := "generalist" |}.

(** The dict [circuit_breaker_status] returns; the keys a branch does not set
    are [None]. *)
Record breaker_status := {
  bs_agent_id : string;
  bs_state : string;
  bs_failure_count : Z;
  bs_failure_threshold : option Z;
  bs_last_failure_at : option (option Z);
  bs_fallback_agent : option string;
  bs_message : option string
}.

(** [circuit_breaker_status].  The function reads no clock: it takes the
    table and the agent only. *)
Definition circuit_breaker_status (agent_id : string)
    (breakers : gmap string circuit_breaker)
    : gmap string circuit_breaker * breaker_status :=
  match breakers !! agent_id with
  | None =>
      (<[agent_id := default_breaker]> breakers,
       {| bs_agent_id := agent_id; bs_state := "closed"; bs_failure_count := 0;
          bs_failure_threshold := None; bs_last_failure_at := None;
          bs_fallback_agent := None;
          bs_message := Some "New circuit breaker created"%string |})
  | Some cb =>
      (breakers,
       {| bs_agent_id := agent_id; bs_state := state cb;
          bs_failure_count := failure_count cb;
          bs_failure_threshold := Some (failure_threshold cb);
          bs_last_failure_at := Some (last_failure_at cb);
          bs_fallback_agent := Some (fallback_agent cb);
          bs_message := None |})
  end.

Record failure_reply := {
  fr_agent_id : string;
  fr_state : string;
  fr_failure_count : Z;
  tripped : bool
}.

(** [circuit_breaker_record_failure]; [failure_type] and [error_message] are
    not stored. *)
Definition circuit_breaker_record_failure (now : Z)
    (agent_id failure_type error_message : string)
    (breakers : gmap string circuit_breaker)
    : gmap string circuit_breaker * failure_reply :=
  let cb := default default_breaker (breakers !! agent_id) in
  let new_count := failure_count cb + 1 in
  let new_state :=
    if failure_threshold cb <=? new_count then "open"%string else state cb in
  (<[agent_id :=
       {| state := new_state; failure_count := new_count;
          last_failure_at := Some now; last_success_at := last_success_at cb;
          opened_at := opened_at cb; failure_threshold := failure_threshold cb;
          window_seconds := window_seconds cb;
          cooldown_seconds := cooldown_seconds cb;
          fallback_agent := fallback_agent cb |}]> breakers,
   {| fr_agent_id := agent_id; fr_state := new_state;
      fr_failure_count := new_count;
      tripped := String.eqb new_state "open" |}).

(** [circuit_breaker_reset]: an UPDATE, so a missing row stays missing. *)
Definition circuit_breaker_reset (now : Z) (agent_id : string)
    (breakers : gmap string circuit_breaker) : gmap string circuit_breaker :=
  match breakers !! agent_id with
  | None => breakers
  | Some cb =>
      <[agent_id :=
          {| state := "closed"; failure_count := 0;
             last_failure_at := last_failure_at cb; last_success_at := Some now;
             opened_at := opened_at cb; failure_threshold := failure_threshold cb;
             window_seconds := window_seconds cb;
             cooldown_seconds := cooldown_seconds cb;
             fallback_agent := fallback_agent cb |}]> breakers
  end.





(** Five failures in a row trip a new breaker (threshold 5); [opened_at] is
    not written, and the later status query reports [open]. *)
Definition fail_times (n : nat) (agent_id : string)
    (breakers : gmap string circuit_breaker) : gmap string circuit_breaker :=
  Nat.iter n
    (fun b => fst (circuit_breaker_record_failure 1 agent_id "timeout" "" b))
    breakers.

Example circuit_breaker_trips :
  let b := fail_times 5 "X" ∅ in
  bs_state (snd (circuit_breaker_status "X" b)) = "open"%string
  /\ (opened_at <$> b !! "X"%string) = Some None
  /\ (state <$> circuit_breaker_reset 2 "X" b !! "X"%string) = Some "closed"%string.
Proof. vm_compute. repeat split. Qed.

(** *** Creating, reading and updating tasks *)

(** The [tasks] table with its AUTOINCREMENT counter (the largest id handed
    out so far). *)
Record task_table := {
  task_rows : list task;
  tasks_seq : Z
}.







(** [if result:] and [if error:]: the argument is given and not empty. *)
Definition given (x : option string) : option string :=
  match x with
  | Some (String c rest) => Some (String c rest)
  | _ => None
  end.

(** The UPDATE of [update_task_status] on one row. *)
Definition set_status (now id : Z) (status : string) (res err : option string)
    (t : task) : task :=
  if task_id t =? id then
    {| task_id := task_id t; goal_id := goal_id t; title := title t;
       description := description t; task_status := status;
       priority := priority t;
       result := match given res with Some r => Some r | None => result t end;
       error := match given err with Some e => Some e | None => error t end;
       dependencies := dependencies t; created_at := created_at t;
       updated_at := now; started_at := started_at t;
       completed_at :=
         if String.eqb status "completed" then Some now else completed_at t |}
  else t.

Record update_reply := {
  up_task_id : Z;
  up_status : string;
  up_message : string
}.

Definition update_task_status (now id : Z) (status : string)
    (res err : option string) (rows : list task) : list task * update_reply :=
  (List.map (set_status now id status res err) rows,
   {| up_task_id := id; up_status := status;
      up_message := ("Task " ++ show_int id ++ " updated to " ++ status)%string |}).


Lemma select_task_id rows id t : select_task rows id = Some t -> task_id t = id.
Proof.
  unfold select_task. intros H. apply List.find_some in H as [_ H]. lia.
Qed.


Lemma select_task_app rows1 rows2 id :
  select_task (rows1 ++ rows2) id
  = match select_task rows1 id with
    | Some t => Some t
    | None => select_task rows2 id
    end.
Proof.
  unfold select_task. induction rows1 as [|t rows IH]; cbn; [reflexivity|].
  now destruct (task_id t =? id).
Qed.





(** X8: a task that [get_next_task] has handed out is not handed out again by
    the next call. *)
Theorem get_next_task_no_double_dispatch now now' tasks r r' :
  snd (get_next_task now tasks) = Some r ->
  snd (get_next_task now' (fst (get_next_task now tasks))) = Some r' ->
  nt_task_id r' <> nt_task_id r.
Proof.
  intros H1 H2. unfold get_next_task in H1, H2.
  destruct (List.find (deps_met tasks)
              (stable_sort queue_order (List.filter is_pending tasks)))
    as [row|] eqn:Hfind; [|discriminate].
  cbn [fst snd] in H1, H2. injection H1 as <-.
  destruct (List.find _ _) as [row'|] eqn:Hfind' in H2; [|discriminate].
  cbn [snd] in H2. injection H2 as <-. cbn [view nt_task_id].
  apply List.find_some in Hfind' as [Hin _].
  apply stable_sort_In, List.filter_In in Hin as [Hin Hp].
  apply List.in_map_iff in Hin as (u & <- & _).
  unfold start_task in *. destruct (task_id u =? task_id row) eqn:E.
  - discriminate.
  - lia.
Qed.

(** The theorem on two independent tasks: T1 first, then T2. *)
Lemma get_next_task_no_double_dispatch_witness :
  snd (get_next_task 5 [new_task 1 9 [] 0; new_task 2 5 [] 0])
  = Some (view (new_task 1 9 [] 0))
  /\ nt_task_id (view (new_task 2 5 [] 0)) <> nt_task_id (view (new_task 1 9 [] 0)).
Proof.
  split; [reflexivity|].
  apply (get_next_task_no_double_dispatch 5 6
           [new_task 1 9 [] 0; new_task 2 5 [] 0]); reflexivity.
Defined.

(** *** Goal decomposition *)

(** A row of [goals], keyed by its id. *)
Record goal := {
  goal_name : string;
  goal_description : option string;
  goal_status : string;
  goal_metadata : string;
  goal_created_at : Z
}.

Inductive decompose_reply :=
| DecomposeError (message : string)
| Decomposed (goal : Z) (strategy : string) (task_ids : list Z)
             (task_count : nat) (message : string).

(** The task titles of a strategy; any other strategy has none. *)
Definition decomposition (strategy name : string) : list string :=
  if String.eqb strategy "sequential" then
    ["Analyze requirements for: " ++ name; "Design solution for: " ++ name;
     "Implement: " ++ name; "Test: " ++ name; "Document: " ++ name]%string
  else if String.eqb strategy "parallel" then
    ["Research: " ++ name; "Prototype: " ++ name; "Review: " ++ name]%string
  else if String.eqb strategy "hierarchical" then
    ["Plan: " ++ name; "Execute Phase 1: " ++ name; "Execute Phase 2: " ++ name;
     "Integrate: " ++ name; "Validate: " ++ name]%string
  else [].

(** [for i, task_title in enumerate(tasks)]: one INSERT per title, with
    [priority = 10 - i] and, for the sequential strategy, the task created
    just before as the only dependency. *)
Fixpoint insert_tasks (now goal : Z) (sequential : bool) (titles : list string)
    (i : Z) (task_ids : list Z) (tb : task_table) : task_table * list Z :=
  match titles with
  | [] => (tb, task_ids)
  | ttl :: rest =>
      let deps :=
        match List.last (List.map Some task_ids) None with
        | Some previous => if sequential then [previous] else []
        | None => []
        end in
      let id := tasks_seq tb + 1 in
      insert_tasks now goal sequential rest (i + 1) (task_ids ++ [id])
        {| task_rows :=
             task_rows tb ++
             [{| task_id := id; goal_id := Some goal; title := ttl;
                 description := None; task_status := "pending";
                 priority := 10 - i; result := None; error := None;
                 dependencies := Some deps; created_at := now;
                 updated_at := now; started_at := None;
                 completed_at := None |}];
           tasks_seq := id |}
  end.

(** [decompose_goal]; the elapsed time in the reply is left out. *)
Definition decompose_goal (now goal : Z) (strategy : string)
    (goals : gmap Z Runtime.goal) (tb : task_table)
    : task_table * decompose_reply :=
  match goals !! goal with
  | None => (tb, DecomposeError ("Goal " ++ show_int goal ++ " not found"))
  | Some g =>
      let titles := decomposition strategy (goal_name g) in
      let '(tb', task_ids) :=
        insert_tasks now goal (String.eqb strategy "sequential") titles 0 [] tb in
      (tb',
       Decomposed goal strategy task_ids (length task_ids)
         ("Created " ++ show_int (Z.of_nat (length task_ids))
          ++ " tasks for goal '" ++ goal_name g ++ "'"))
  end.

Definition created_ids (r : decompose_reply) : list Z :=
  match r with
  | Decomposed _ _ ids _ _ => ids
  | DecomposeError _ => []
  end.


(** Tasks that are settled (not pending) and older than [seq] do not take
    part in the choice among newer tasks whose dependencies are newer too. *)
Definition settled (seq : Z) (t : task) : Prop :=
  task_id t <= seq /\ is_pending t = false.

Definition newer (seq : Z) (t : task) : Prop :=
  seq < task_id t
  /\ List.Forall (fun d => seq < d) (default [] (dependencies t)).

Lemma filter_none {X} (p : X -> bool) l :
  List.Forall (fun x => p x = false) l -> List.filter p l = [].
Proof.
  induction 1 as [|x l Hx Hl IH]; cbn; [reflexivity|]. now rewrite Hx.
Qed.

Lemma find_ext_in {X} (p q : X -> bool) l :
  (forall x, In x l -> p x = q x) -> List.find p l = List.find q l.
Proof.
  induction l as [|x l IH]; intros H; cbn; [reflexivity|].
  rewrite (H x) by now left. destruct (q x); [reflexivity|].
  apply IH. intros y Hy. apply H. now right.
Qed.

Lemma forallb_ext_in {X} (p q : X -> bool) l :
  (forall x, In x l -> p x = q x) -> List.forallb p l = List.forallb q l.
Proof.
  induction l as [|x l IH]; intros H; cbn; [reflexivity|].
  rewrite (H x) by now left. f_equal. apply IH. intros y Hy. apply H. now right.
Qed.

Lemma select_task_settled seq rows news d :
  List.Forall (settled seq) rows -> seq < d ->
  select_task (rows ++ news) d = select_task news d.
Proof.
  intros Hrows Hd. rewrite select_task_app.
  destruct (select_task rows d) as [t|] eqn:E; [|reflexivity].
  apply select_task_id in E as Hid. unfold select_task in E.
  apply List.find_some in E as [Hin _].
  rewrite List.Forall_forall in Hrows. destruct (Hrows _ Hin). lia.
Qed.

Lemma get_next_task_settled_prefix now seq rows news :
  List.Forall (settled seq) rows -> List.Forall (newer seq) news ->
  get_next_task now (rows ++ news)
  = (rows ++ fst (get_next_task now news), snd (get_next_task now news)).
Proof.
  intros Hrows Hnews. unfold get_next_task.
  rewrite List.filter_app, (filter_none is_pending rows), app_nil_l.
  2:{ eapply List.Forall_impl; [|exact Hrows]. now intros t [_ H]. }
  rewrite (find_ext_in (deps_met (rows ++ news)) (deps_met news)).
  2:{ intros t Ht. apply stable_sort_In, List.filter_In in Ht as [Ht _].
      rewrite List.Forall_forall in Hnews. destruct (Hnews _ Ht) as [_ Hdeps].
      unfold deps_met. apply forallb_ext_in. intros d Hd.
      rewrite List.Forall_forall in Hdeps.
      now rewrite (select_task_settled seq) by auto. }
  destruct (List.find (deps_met news) _) as [row|] eqn:Hfind; [|reflexivity].
  cbn [fst snd]. f_equal. rewrite List.map_app. f_equal.
  apply List.find_some in Hfind as [Hin _].
  apply stable_sort_In, List.filter_In in Hin as [Hin _].
  rewrite List.Forall_forall in Hnews. destruct (Hnews _ Hin) as [Hid _].
  rewrite <- (List.map_id rows) at 2. apply List.map_ext_in. intros t Ht.
  rewrite List.Forall_forall in Hrows. destruct (Hrows _ Ht) as [Hle _].
  apply start_task_other. lia.
Qed.

(** The five tasks of a sequential decomposition, written out. *)
Definition planned (now g id prio : Z) (ttl : string) (deps : list Z) : task :=
  {| task_id := id; goal_id := Some g; title := ttl; description := None;
     task_status := "pending"; priority := prio; result := None; error := None;
     dependencies := Some deps; created_at := now; updated_at := now;
     started_at := None; completed_at := None |}.

Definition sequential_tasks (now g s : Z) (name : string) : list task :=
  [planned now g (s + 1) 10 ("Analyze requirements for: " ++ name) [];
   planned now g (s + 2) 9 ("Design solution for: " ++ name) [s + 1];
   planned now g (s + 3) 8 ("Implement: " ++ name) [s + 2];
   planned now g (s + 4) 7 ("Test: " ++ name) [s + 3];
   planned now g (s + 5) 6 ("Document: " ++ name) [s + 4]].

Lemma decompose_goal_sequential now g goals tb row :
  goals !! g = Some row ->
  task_rows (fst (decompose_goal now g "sequential" goals tb))
  = task_rows tb ++ sequential_tasks now g (tasks_seq tb) (goal_name row)
  /\ created_ids (snd (decompose_goal now g "sequential" goals tb))
     = [tasks_seq tb + 1; tasks_seq tb + 2; tasks_seq tb + 3;
        tasks_seq tb + 4; tasks_seq tb + 5].
Proof.
  intros Hg. unfold decompose_goal. rewrite Hg.
  cbn -[Z.add Z.sub]. rewrite <- !app_assoc. cbn [app].
  unfold sequential_tasks, planned.
  split; repeat (f_equal; try lia).
Qed.

Lemma offset_eqb s a b : (s + a =? s + b) = (a =? b).
Proof. destruct (a =? b) eqn:E; lia. Qed.

Ltac run_queue :=
  repeat (cbn -[Z.add]; unfold set_status, start_task, planned;
          rewrite ?offset_eqb).

Ltac all_newer :=
  unfold newer; run_queue;
  repeat first [apply List.Forall_nil | apply List.Forall_cons | split];
  run_queue;
  repeat first [apply List.Forall_nil | apply List.Forall_cons | split];
  lia.

Lemma update_task_status_settled_prefix now seq id status res err rows news :
  List.Forall (settled seq) rows -> seq < id ->
  fst (update_task_status now id status res err (rows ++ news))
  = rows ++ fst (update_task_status now id status res err news).
Proof.
  intros Hrows Hid. cbn [fst update_task_status]. rewrite List.map_app. f_equal.
  rewrite <- (List.map_id rows) at 2. apply List.map_ext_in. intros t Ht.
  rewrite List.Forall_forall in Hrows. destruct (Hrows _ Ht) as [Hle _].
  unfold set_status. replace (task_id t =? id) with false by lia. reflexivity.
Qed.

(** X10: a sequential decomposition into a queue with no pending task is
    served one task at a time.  The five tasks get consecutive ids;
    [get_next_task] hands out the first; while that one is not completed the
    next call finds nothing; once it is marked [completed] the next call hands
    out the second. *)
Theorem sequential_decomposition_is_gated now now1 now2 now3 g goals tb row :
  goals !! g = Some row ->
  List.Forall (settled (tasks_seq tb)) (task_rows tb) ->
  let first := tasks_seq tb + 1 in
  let rows1 := task_rows (fst (decompose_goal now g "sequential" goals tb)) in
  let rows2 := fst (get_next_task now1 rows1) in
  let rows3 := fst (update_task_status now2 first "completed" None None rows2) in
  created_ids (snd (decompose_goal now g "sequential" goals tb))
  = [first; first + 1; first + 2; first + 3; first + 4]
  /\ option_map nt_task_id (snd (get_next_task now1 rows1)) = Some first
  /\ snd (get_next_task now2 rows2) = None
  /\ option_map nt_task_id (snd (get_next_task now3 rows3)) = Some (first + 1).
Proof.
  intros Hg Hrows. cbv zeta.
  destruct (decompose_goal_sequential now g goals tb row Hg) as [-> ->].
  set (s := tasks_seq tb) in *.
  assert (Hnew : List.Forall (newer s) (sequential_tasks now g s (goal_name row))).
  { unfold sequential_tasks, planned. all_newer. }
  rewrite (get_next_task_settled_prefix now1 s) by assumption.
  cbn [fst snd].
  split; [repeat (f_equal; try lia)|]. split; [reflexivity|].
  assert (H2 : fst (get_next_task now1 (sequential_tasks now g s (goal_name row)))
          = start_task now1 (s + 1)
              (planned now g (s + 1) 10 ("Analyze requirements for: " ++ goal_name row) [])
            :: List.tl (sequential_tasks now g s (goal_name row))).
  { unfold get_next_task, sequential_tasks, start_task, planned.
    run_queue. reflexivity. }
  rewrite H2. clear H2.
  assert (Hnew2 : List.Forall (newer s)
            (start_task now1 (s + 1)
               (planned now g (s + 1) 10 ("Analyze requirements for: " ++ goal_name row) [])
             :: List.tl (sequential_tasks now g s (goal_name row)))).
  { unfold sequential_tasks, start_task, planned. all_newer. }
  split.
  - rewrite (get_next_task_settled_prefix now2 s) by assumption.
    cbn [snd]. unfold get_next_task, start_task, planned. run_queue. reflexivity.
  - rewrite (update_task_status_settled_prefix now2 s) by (assumption || lia).
    rewrite (get_next_task_settled_prefix now3 s); [|assumption|].
    + cbn [snd]. unfold get_next_task, set_status, start_task, planned.
      run_queue. f_equal. lia.
    + unfold sequential_tasks, set_status, start_task, planned. all_newer.
Qed.

(** The theorem on an empty queue and one goal. *)
Definition seed_goals : gmap Z goal :=
  {[ 1 := {| goal_name := "ship"; goal_description := None;
             goal_status := "active"; goal_metadata := "{}";
             goal_created_at := 0 |} ]}.

Lemma sequential_decomposition_is_gated_witness :
  let empty_table := {| task_rows := []; tasks_seq := 0 |} in
  let rows1 := task_rows (fst (decompose_goal 0 1 "sequential" seed_goals empty_table)) in
  let rows2 := fst (get_next_task 1 rows1) in
  let rows3 := fst (update_task_status 2 1 "completed" None None rows2) in
  created_ids (snd (decompose_goal 0 1 "sequential" seed_goals empty_table))
  = [1; 2; 3; 4; 5]
  /\ option_map nt_task_id (snd (get_next_task 1 rows1)) = Some 1
  /\ snd (get_next_task 2 rows2) = None
  /\ option_map nt_task_id (snd (get_next_task 3 rows3)) = Some 2.
Proof.
  apply (sequential_decomposition_is_gated 0 1 2 3 1 seed_goals
           {| task_rows := []; tasks_seq := 0 |}
           {| goal_name := "ship"; goal_description := None;
              goal_status := "active"; goal_metadata := "{}";
              goal_created_at := 0 |}).
  - reflexivity.
  - constructor.
Defined.

(** *** More on relay pipelines *)







(** *** Progress of a pipeline and its completed steps *)




















(** *** More on circuit breakers *)

(** The row an operation finds for an agent: the stored one, or the
    defaults of a row inserted on the spot. *)
Definition breaker_of (agent_id : string)
    (breakers : gmap string circuit_breaker) : circuit_breaker :=
  default default_breaker (breakers !! agent_id).

Lemma fail_times_S n agent_id (breakers : gmap string circuit_breaker) :
  fail_times (S n) agent_id breakers
  = fst (circuit_breaker_record_failure 1 agent_id "timeout" ""
           (fail_times n agent_id breakers)).
Proof. reflexivity. Qed.

Lemma record_failure_breaker now agent_id ty msg
    (breakers : gmap string circuit_breaker) :
  let cb := breaker_of agent_id breakers in
  let cb' :=
    breaker_of agent_id
      (fst (circuit_breaker_record_failure now agent_id ty msg breakers)) in
  failure_count cb' = failure_count cb + 1
  /\ failure_threshold cb' = failure_threshold cb
  /\ state cb'
     = (if failure_threshold cb <=? failure_count cb + 1
        then "open"%string else state cb)
  /\ opened_at cb' = opened_at cb.
Proof.
  cbv zeta. unfold breaker_of, circuit_breaker_record_failure. cbn [fst].
  rewrite lookup_insert_eq. cbn. repeat split.
Qed.

Lemma fail_times_count n agent_id (breakers : gmap string circuit_breaker) :
  let before := breaker_of agent_id breakers in
  let after := breaker_of agent_id (fail_times (S n) agent_id breakers) in
  failure_count after = failure_count before + Z.of_nat (S n)
  /\ failure_threshold after = failure_threshold before
  /\ state after
     = (if failure_threshold before <=? failure_count before + Z.of_nat (S n)
        then "open"%string else state before)
  /\ opened_at after = opened_at before.
Proof.
  cbv zeta. induction n as [|n IH].
  - change (fail_times 1 agent_id breakers)
      with (fst (circuit_breaker_record_failure 1 agent_id "timeout" "" breakers)).
    replace (Z.of_nat 1) with 1 by reflexivity.
    apply (record_failure_breaker 1 agent_id "timeout" "" breakers).
  - rewrite fail_times_S. destruct IH as (Hc & Ht & Hs & Ho).
    destruct (record_failure_breaker 1 agent_id "timeout" ""
                (fail_times (S n) agent_id breakers)) as (Hc' & Ht' & Hs' & Ho').
    rewrite Hc', Ht', Hs', Ho', Hc, Ht, Hs, Ho.
    replace (Z.of_nat (S (S n))) with (Z.of_nat (S n) + 1) by lia.
    repeat split; try lia.
    destruct (failure_threshold _ <=? _ + Z.of_nat (S n)) eqn:E1;
      destruct (failure_threshold _ <=? _ + Z.of_nat (S n) + 1) eqn:E2;
      destruct (failure_threshold _ <=? _ + (Z.of_nat (S n) + 1)) eqn:E3;
      try reflexivity; lia.
Qed.


(** The operations of the breaker service. *)
Inductive breaker_op :=
| Status (agent_id : string)
| Failure (now : Z) (agent_id failure_type error_message : string)
| Reset (now : Z) (agent_id : string).

Definition apply_op (breakers : gmap string circuit_breaker) (op : breaker_op)
    : gmap string circuit_breaker :=
  match op with
  | Status agent_id => fst (circuit_breaker_status agent_id breakers)
  | Failure now agent_id ty msg =>
      fst (circuit_breaker_record_failure now agent_id ty msg breakers)
  | Reset now agent_id => circuit_breaker_reset now agent_id breakers
  end.

(** No row is half-open, and no row has a time of opening. *)
Definition two_state (breakers : gmap string circuit_breaker) : Prop :=
  forall agent_id cb, breakers !! agent_id = Some cb ->
    (state cb = "closed"%string \/ state cb = "open"%string)
    /\ opened_at cb = None.

Lemma apply_op_two_state breakers op :
  two_state breakers -> two_state (apply_op breakers op).
Proof.
  intros Hinv agent cb. destruct op as [a|now a ty msg|now a]; cbn.
  - unfold circuit_breaker_status.
    destruct (breakers !! a) eqn:Ha; cbn [fst]; [apply Hinv|].
    destruct (decide (a = agent)) as [->|Hne].
    + rewrite lookup_insert_eq. intros [= <-]. cbn. auto.
    + rewrite lookup_insert_ne by exact Hne. apply Hinv.
  - destruct (decide (a = agent)) as [->|Hne].
    + rewrite lookup_insert_eq. intros [= <-]. cbn.
      assert (Hold : (state (default default_breaker (breakers !! agent))
                      = "closed"%string
                      \/ state (default default_breaker (breakers !! agent))
                         = "open"%string)
                     /\ opened_at (default default_breaker (breakers !! agent))
                        = None).
      { destruct (breakers !! agent) eqn:E; [now apply (Hinv agent)|cbn; auto]. }
      destruct Hold as [Hst Hop]. split; [|exact Hop].
      destruct (failure_threshold _ <=? _); [now right|exact Hst].
    + rewrite lookup_insert_ne by exact Hne. apply Hinv.
  - unfold circuit_breaker_reset.
    destruct (breakers !! a) eqn:Ha; [|apply Hinv].
    destruct (decide (a = agent)) as [->|Hne].
    + rewrite lookup_insert_eq. intros [= <-]. cbn.
      split; [now left|]. now apply (Hinv agent).
    + rewrite lookup_insert_ne by exact Hne. apply Hinv.
Qed.

(** X15: the service knows two states only.  Starting from a table without
    breakers, whatever status queries, failures and resets follow, every
    breaker is [closed] or [open], never [half_open], and [opened_at] is never
    written. *)
Theorem breakers_never_half_open (ops : list breaker_op) :
  two_state (List.fold_left apply_op ops ∅)
  /\ forall agent_id,
       bs_state (snd (circuit_breaker_status agent_id
                        (List.fold_left apply_op ops ∅)))
       <> "half_open"%string.
Proof.
  assert (Hinv : two_state (List.fold_left apply_op ops ∅)).
  { assert (H : forall b, two_state b -> two_state (List.fold_left apply_op ops b)).
    { induction ops as [|op ops IH]; intros b Hb; [exact Hb|].
      cbn. apply IH. now apply apply_op_two_state. }
    apply H. intros a cb Hl. rewrite lookup_empty in Hl. discriminate. }
  split; [exact Hinv|]. intros agent. unfold circuit_breaker_status.
  destruct (_ !! agent) as [cb|] eqn:E; cbn; [|discriminate].
  destruct (Hinv _ _ E) as [[-> | ->] _]; discriminate.
Qed.

(** X16: a reset closes an existing breaker and sets its count to zero, so
    that it takes a full threshold of failures to open it again; for an
    agent without a breaker a reset does nothing, not even create one. *)
Theorem reset_then_failures n now agent_id (breakers : gmap string circuit_breaker) :
  (forall cb, breakers !! agent_id = Some cb ->
     let after :=
       breaker_of agent_id
         (fail_times (S n) agent_id (circuit_breaker_reset now agent_id breakers)) in
     breaker_of agent_id (circuit_breaker_reset now agent_id breakers)
     = {| state := "closed"; failure_count := 0;
          last_failure_at := last_failure_at cb; last_success_at := Some now;
          opened_at := opened_at cb; failure_threshold := failure_threshold cb;
          window_seconds := window_seconds cb;
          cooldown_seconds := cooldown_seconds cb;
          fallback_agent := fallback_agent cb |}
     /\ failure_count after = Z.of_nat (S n)
     /\ state after
        = (if failure_threshold cb <=? Z.of_nat (S n)
           then "open"%string else "closed"%string))
  /\ (breakers !! agent_id = None ->
      circuit_breaker_reset now agent_id breakers = breakers).
Proof.
  split.
  - intros cb Hcb. cbv zeta.
    assert (Hreset : breaker_of agent_id (circuit_breaker_reset now agent_id breakers)
              = {| state := "closed"; failure_count := 0;
                   last_failure_at := last_failure_at cb;
                   last_success_at := Some now; opened_at := opened_at cb;
                   failure_threshold := failure_threshold cb;
                   window_seconds := window_seconds cb;
                   cooldown_seconds := cooldown_seconds cb;
                   fallback_agent := fallback_agent cb |}).
    { unfold breaker_of, circuit_breaker_reset. rewrite Hcb.
      now rewrite lookup_insert_eq. }
    split; [exact Hreset|].
    pose proof (fail_times_count n agent_id
                  (circuit_breaker_reset now agent_id breakers)) as H.
    cbv zeta in H. rewrite Hreset in H.
    cbn [failure_count failure_threshold state] in H.
    destruct H as (Hc & _ & Hs & _). split; [rewrite Hc; lia|].
    rewrite Hs. now rewrite Z.add_0_l.
  - intros Hnone. unfold circuit_breaker_reset. now rewrite Hnone.
Qed.

End Runtime.

(** ** Memory engine ([enhanced-memory-mcp/server.py]) *)

Module Memory.

(** *** Text helpers *)

(** [str.lower()], on the letters A-Z.  The keywords searched below are
    ASCII, and no character outside ASCII lowers to text that completes one of
    them, so this is all of [lower] that the search can see. *)
Definition lower_ascii (c : ascii) : ascii :=
  let n := nat_of_ascii c in
  if ((65 <=? n) && (n <=? 90))%nat then ascii_of_nat (n + 32) else c.

Fixpoint lower (s : string) : string :=
  match s with
  | EmptyString => EmptyString
  | String c rest => String (lower_ascii c) (lower rest)
  end.

(** [kw in text] *)
Fixpoint contains (kw text : string) : bool :=
  String.prefix kw text
  || match text with
     | EmptyString => false
     | String _ rest => contains kw rest
     end.

(** *** Tables *)

(** The JSON snapshot a version stores: [{name, type, observations}]. *)
Record snapshot := {
  snap_name : string;
  snap_type : string;
  snap_observations : list string
}.

Record entity := {
  entity_id : Z;
  entity_name : string;
  entity_type : string;
  tier : string;
  importance_score : float;
  entity_created_at : Z;
  entity_updated_at : Z;
  entity_access_count : Z;
  metadata : option string
}.

Record observation := {
  observation_entity_id : Z;
  content : string;
  observation_created_at : Z
}.

Record entity_version := {
  version_entity_id : Z;
  version_number : Z;
  version_snapshot : snapshot;
  version_created_at : Z;
  commit_message : string
}.

(** The three tables [create_entities] writes, and the AUTOINCREMENT counter
    of [entities] (the largest id handed out so far). *)
Record memory_db := {
  entities : list entity;
  observations : list observation;
  entity_versions : list entity_version;
  entities_seq : Z
}.

Definition empty_db : memory_db :=
  {| entities := []; observations := []; entity_versions := []; entities_seq := 0 |}.

(** *** [create_entities] *)

(** One item of the batch; a missing key is [None]. *)
Record entity_input := {
  in_name : option string;
  in_entityType : option string;
  in_observations : option (list string);
  in_metadata : option string
}.

Record created_entity := {
  cr_id : Z;
  cr_name : string;
  cr_tier : string;
  cr_importance : float
}.

Record create_result := {
  created : nat;
  errors : nat;
  created_entities : list created_entity;
  error_messages : list string
}.

Definition input_name (e : entity_input) : string := default ""%string (in_name e).
Definition input_type (e : entity_input) : string :=
  default "general"%string (in_entityType e).
Definition input_observations (e : entity_input) : list string :=
  default [] (in_observations e).

Definition keywords : list string := ["error"; "critical"; "important"; "bug"]%string.

(** [any(kw in text.lower() for kw in [...])] on
    [text = f"{name} {' '.join(observations)}"] *)
Definition mentions_keyword (name : string) (obs : list string) : bool :=
  let text := (name ++ " " ++ String.concat " " obs)%string in
  List.existsb (fun kw => contains kw (lower text)) keywords.

(** The importance heuristic, in binary64 as Python computes it. *)
Definition score_importance (name : string) (obs : list string) : float :=
  let importance := 0.5%float in
  let importance :=
    if mentions_keyword name obs then (importance + 0.2)%float else importance in
  let importance :=
    if (3 <? length obs)%nat then (importance + 0.1)%float else importance in
  (* min(1.0, importance) *)
  if PrimFloat.ltb importance 1%float then importance else 1%float.

Definition tier_of (importance : float) : string :=
  if PrimFloat.leb 0.8%float importance then "semantic"
  else if PrimFloat.leb 0.6%float importance then "episodic"
  else "working".

Definition name_taken (name : string) (db : memory_db) : bool :=
  List.existsb (fun e => String.eqb (entity_name e) name) (entities db).

Definition duplicate_message (name : string) : string :=
  ("Entity '" ++ name ++ "' already exists")%string.

(** The body of the loop for one item: [inr] is the [sqlite3.IntegrityError]
    branch, taken when the INSERT into [entities] violates [name UNIQUE]; it
    is the first statement that writes, so a failed item leaves no row. *)
Definition create_entity (now : Z) (e : entity_input) (db : memory_db)
    : memory_db * (created_entity + string) :=
  let name := input_name e in
  let observations_in := input_observations e in
  let importance := score_importance name observations_in in
  let tier_in := tier_of importance in
  if name_taken name db then (db, inr (duplicate_message name))
  else
    let id := entities_seq db + 1 in
    ({| entities :=
          entities db ++
          [{| entity_id := id; entity_name := name; entity_type := input_type e;
              tier := tier_in; importance_score := importance;
              entity_created_at := now; entity_updated_at := now;
              entity_access_count := 0;
              metadata := Some (default "{}"%string (in_metadata e)) |}];
        observations :=
          observations db ++
          List.map (fun o => {| observation_entity_id := id; content := o;
                                observation_created_at := now |})
                   observations_in;
        entity_versions :=
          entity_versions db ++
          [{| version_entity_id := id; version_number := 1;
              version_snapshot :=
                {| snap_name := name; snap_type := input_type e;
                   snap_observations := observations_in |};
              version_created_at := now;
              commit_message := "Initial creation" |}];
        entities_seq := id |},
     inl {| cr_id := id; cr_name := name; cr_tier := tier_in;
            cr_importance := importance |}).

(** [for entity in entities: try: ... except ...], with the two result lists. *)
Fixpoint create_loop (now : Z) (batch : list entity_input) (db : memory_db)
    (done : list created_entity) (failed : list string)
    : memory_db * (list created_entity * list string) :=
  match batch with
  | [] => (db, (done, failed))
  | e :: rest =>
      match create_entity now e db with
      | (db', inl c) => create_loop now rest db' (done ++ [c]) failed
      | (db', inr msg) => create_loop now rest db' done (failed ++ [msg])
      end
  end.

Definition create_entities (now : Z) (batch : list entity_input) (db : memory_db)
    : memory_db * create_result :=
  let '(db', (done, failed)) := create_loop now batch db [] [] in
  (db', {| created := length done; errors := length failed;
           created_entities := done; error_messages := failed |}).

(** The importance scenario of the specification. *)
Definition bug1 : entity_input :=
  {| in_name := Some "Bug1"%string; in_entityType := Some "issue"%string;
     in_observations :=
       Some ["critical failure"; "retry"; "replay"; "stack"; "repro"]%string;
     in_metadata := None |}.

(** The four values the heuristic can take.  With both bonuses the binary64
    sum [0.5 + 0.2 + 0.1] is [0.7999999999999999], the float just below
    [0.8]. *)
Lemma score_importance_cases name obs :
  score_importance name obs
  = match mentions_keyword name obs, (3 <? length obs)%nat with
    | false, false => 0.5%float
    | true, false => 0.7%float
    | false, true => 0.6%float
    | true, true => 0x1.9999999999999p-1%float
    end.
Proof.
  unfold score_importance.
  destruct (mentions_keyword name obs), (3 <? length obs)%nat; reflexivity.
Qed.

(** No input is placed in the semantic tier: the branch [importance >= 0.8]
    is never taken. *)
Lemma tier_of_score_never_semantic name obs :
  tier_of (score_importance name obs) <> "semantic"%string.
Proof.
  rewrite score_importance_cases.
  destruct (mentions_keyword name obs), (3 <? length obs)%nat;
    vm_compute; discriminate.
Qed.

(** C5 (what the code does): for an entity whose text mentions a keyword and
    that has more than three observations, the stored score is the binary64
    sum [0.5 + 0.2 + 0.1 = 0.7999999999999999], which is below [0.8], and the
    entity is placed in the episodic tier, not the semantic one. *)
Theorem importance_bump_stays_episodic :
  mentions_keyword (input_name bug1) (input_observations bug1) = true
  /\ (3 <? length (input_observations bug1))%nat = true
  /\ List.map cr_importance (created_entities (snd (create_entities 0 [bug1] empty_db)))
     = [0x1.9999999999999p-1%float]
  /\ PrimFloat.ltb 0x1.9999999999999p-1%float 0.8%float = true
  /\ List.map cr_tier (created_entities (snd (create_entities 0 [bug1] empty_db)))
     = ["episodic"%string].
Proof. vm_compute. repeat split. Qed.

(** *** Batches with name collisions *)




Definition entity_names (db : memory_db) : list string :=
  List.map entity_name (entities db).







(** The duplicate scenario of the specification: two items named [A]. *)
Definition item_a : entity_input :=
  {| in_name := Some "A"%string; in_entityType := Some "t"%string;
     in_observations := Some ["x"%string]; in_metadata := None |}.

Example create_entities_duplicate :
  let reply := snd (create_entities 0 [item_a; item_a] empty_db) in
  List.map (fun c => (cr_name c, cr_tier c)) (created_entities reply)
  = [("A", "working")]%string
  /\ List.map cr_importance (created_entities reply) = [0.5%float]
  /\ error_messages reply = ["Entity 'A' already exists"%string].
Proof. vm_compute. repeat split. Qed.

(** *** [memory_diff] *)

Inductive diff_reply :=
| DiffError (message : string)
| Diff (entity : string) (version1 version2 : Z) (v1 v2 : snapshot)
       (added_observations removed_observations : list string).

(** [SELECT id FROM entities WHERE name = ?] *)
Definition select_entity (name : string) (db : memory_db) : option entity :=
  List.find (fun e => String.eqb (entity_name e) name) (entities db).

(** [SELECT ... FROM entity_versions WHERE entity_id = ? ORDER BY
    version_number DESC] *)
Definition newest_first (a b : entity_version) : bool :=
  version_number b <? version_number a.

Definition versions_of (row : entity) (db : memory_db) : list entity_version :=
  stable_sort newest_first
    (List.filter (fun v => version_entity_id v =? entity_id row) (entity_versions db)).

(** The loop [for v in versions] that picks the snapshot of a version number
    (the last row wins).  A snapshot is a dict with three keys, so the test
    [not v1_data] fails exactly when no row was picked. *)
Definition snapshot_at (version : Z) (versions : list entity_version) : option snapshot :=
  List.fold_left
    (fun found v =>
       if version_number v =? version then Some (version_snapshot v) else found)
    versions None.

(** [[o for o in xs if o not in ys]] *)
Definition not_in (xs ys : list string) : list string :=
  List.filter (fun o => negb (List.existsb (String.eqb o) ys)) xs.

Definition memory_diff (name : string) (version1 version2 : option Z)
    (db : memory_db) : diff_reply :=
  match select_entity name db with
  | None => DiffError ("Entity '" ++ name ++ "' not found")
  | Some row =>
      let versions := versions_of row db in
      match versions with
      | latest :: previous :: _ =>
          let version1 := default (version_number previous) version1 in
          let version2 := default (version_number latest) version2 in
          match snapshot_at version1 versions, snapshot_at version2 versions with
          | Some v1_data, Some v2_data =>
              Diff name version1 version2 v1_data v2_data
                   (not_in (snap_observations v2_data) (snap_observations v1_data))
                   (not_in (snap_observations v1_data) (snap_observations v2_data))
          | _, _ => DiffError "Version not found"
          end
      | _ => DiffError "Not enough versions for diff"
      end
  end.

Lemma not_in_self xs : not_in xs xs = [].
Proof.
  unfold not_in.
  assert (H : forall ys, (forall o, In o ys -> In o xs) ->
            List.filter (fun o => negb (List.existsb (String.eqb o) xs)) ys = []).
  { induction ys as [|y ys IH]; intros Hsub; [reflexivity|]. cbn.
    assert (Hy : List.existsb (String.eqb y) xs = true).
    { apply List.existsb_exists. exists y.
      split; [apply Hsub; now left|apply String.eqb_refl]. }
    rewrite Hy. cbn. apply IH. intros o Ho. apply Hsub. now right. }
  apply H. auto.
Qed.

Lemma snapshot_at_found version versions :
  In version (List.map version_number versions) ->
  exists snap, snapshot_at version versions = Some snap.
Proof.
  unfold snapshot_at.
  assert (H : forall found,
            (is_Some found \/ In version (List.map version_number versions)) ->
            exists snap,
              List.fold_left
                (fun found v =>
                   if version_number v =? version then Some (version_snapshot v)
                   else found)
                versions found = Some snap).
  { induction versions as [|v vs IH]; intros found [Hf|Hin]; cbn.
    - destruct Hf as [s ->]. now exists s.
    - destruct Hin.
    - apply IH. left. destruct (version_number v =? version); [eauto|exact Hf].
    - destruct Hin as [Hv|Hin].
      + apply IH. left. apply Z.eqb_eq in Hv. rewrite Hv. eauto.
      + apply IH. now right. }
  intros Hin. apply H. now right.
Qed.

(** C4 (as the code has it): for an existing entity with at least two stored
    versions, the diff of a stored version with itself has empty
    [added_observations] and [removed_observations]; for an existing entity
    with fewer than two stored versions every diff, also of a version with
    itself, is the error ["Not enough versions for diff"]. *)
Theorem memory_diff_same_version name v db row :
  select_entity name db = Some row ->
  In v (List.map version_number (versions_of row db)) ->
  ((2 <= length (versions_of row db))%nat ->
     exists snap, memory_diff name (Some v) (Some v) db = Diff name v v snap snap [] [])
  /\ ((length (versions_of row db) < 2)%nat ->
     memory_diff name (Some v) (Some v) db
     = DiffError "Not enough versions for diff").
Proof.
  intros Hrow Hv. unfold memory_diff. rewrite Hrow. cbv zeta.
  destruct (snapshot_at_found _ _ Hv) as [snap Hsnap].
  destruct (versions_of row db) as [|latest [|previous rest]] eqn:Hvs.
  - split; [cbn; lia|reflexivity].
  - split; [cbn; lia|reflexivity].
  - split; [|cbn; lia]. intros _. exists snap. cbn -[snapshot_at not_in].
    rewrite Hsnap. now rewrite not_in_self.
Qed.

(** An entity with two stored versions (the service itself only ever writes
    version 1; later versions come from other writers of the same table). *)
Definition two_version_db : memory_db :=
  {| entities :=
       [{| entity_id := 1; entity_name := "A"; entity_type := "t";
           tier := "working"; importance_score := 0.5%float;
           entity_created_at := 0; entity_updated_at := 0;
           entity_access_count := 0; metadata := Some "{}"%string |}];
     observations := [];
     entity_versions :=
       [{| version_entity_id := 1; version_number := 1;
           version_snapshot := {| snap_name := "A"; snap_type := "t";
                                  snap_observations := ["x"]%string |};
           version_created_at := 0; commit_message := "Initial creation" |};
        {| version_entity_id := 1; version_number := 2;
           version_snapshot := {| snap_name := "A"; snap_type := "t";
                                  snap_observations := ["x"; "y"]%string |};
           version_created_at := 1; commit_message := "second" |}];
     entities_seq := 1 |}.

Definition entity_a : entity :=
  {| entity_id := 1; entity_name := "A"; entity_type := "t";
     tier := "working"; importance_score := 0.5%float;
     entity_created_at := 0; entity_updated_at := 0;
     entity_access_count := 0; metadata := Some "{}"%string |}.

(** The theorem at version 2 of the entity [A] of [two_version_db]. *)
Lemma memory_diff_same_version_witness :
  select_entity "A" two_version_db = Some entity_a
  /\ exists snap,
       memory_diff "A" (Some 2) (Some 2) two_version_db = Diff "A" 2 2 snap snap [] [].
Proof.
  split; [reflexivity|].
  apply (memory_diff_same_version "A" 2 two_version_db entity_a).
  - reflexivity.
  - vm_compute. now left.
  - vm_compute. lia.
Defined.

(** C4, the claim as written, fails on every entity this service creates: it
    has version 1 only, and the diff of version 1 with itself is an error. *)
Lemma memory_diff_single_version_is_error :
  let db := fst (create_entities 0 [item_a] empty_db) in
  List.map version_number (entity_versions db) = [1]
  /\ memory_diff "A" (Some 1) (Some 1) db
     = DiffError "Not enough versions for diff".
Proof. vm_compute. split; reflexivity. Qed.

(** *** Working memory *)





























(** *** Procedural memory: skill executions *)

(** A row of [procedural_memory], keyed by its unique [skill_name].  The two
    REAL columns hold binary64 numbers, given here by their exact rational
    values. *)
Record skill := {
  skill_category : string;
  procedure_steps : list string;
  preconditions : list string;
  success_criteria : list string;
  execution_count : Z;
  success_rate : Q;
  avg_execution_time_ms : option Q;
  skill_updated_at : Z
}.

Inductive skill_reply :=
| SkillNotFound (skill_name : string)
| Recorded (skill_name : string) (success : bool) (execution_time_ms : Z).

(** [int(x)]: truncation toward zero. *)
Definition truncate (x : Q) : Z := Z.quot (Qnum x) (Z.pos (Qden x)).

Section SkillExecution.

(** Binary64 arithmetic enters through its rounding: every float operation
    of the source returns the rounding of the exact result.  Of rounding to
    nearest only two facts are used: it is monotone, and it leaves the
    integers up to [2^53] as they are. *)
Variable rnd : Q -> Q.
Hypothesis rnd_monotone : forall x y : Q, (x <= y)%Q -> (rnd x <= rnd y)%Q.
Hypothesis rnd_integer :
  forall z : Z, 0 <= z <= 2 ^ 53 -> (rnd (inject_Z z) == inject_Z z)%Q.

(** [row['avg_execution_time_ms']] is truthy: neither NULL nor zero. *)
Definition truthy (x : option Q) : option Q :=
  match x with
  | Some q => if Qeq_bool q 0 then None else Some q
  | None => None
  end.

Definition record_skill_execution (now : Z) (skill_name : string)
    (success : bool) (execution_time_ms : Z) (skills : gmap string skill)
    : gmap string skill * skill_reply :=
  match skills !! skill_name with
  | None => (skills, SkillNotFound skill_name)
  | Some row =>
      let new_count := execution_count row + 1 in
      let success_count :=
        truncate (rnd (success_rate row * inject_Z (execution_count row)))
        + (if success then 1 else 0) in
      let new_success_rate := rnd (inject_Z success_count / inject_Z new_count) in
      let new_avg_time :=
        match truthy (avg_execution_time_ms row) with
        | Some avg =>
            rnd (rnd (rnd (avg * inject_Z (execution_count row))
                      + inject_Z execution_time_ms)
                 / inject_Z new_count)
        | None => rnd (inject_Z execution_time_ms)
        end in
      (<[skill_name :=
           {| skill_category := skill_category row;
              procedure_steps := procedure_steps row;
              preconditions := preconditions row;
              success_criteria := success_criteria row;
              execution_count := new_count;
              success_rate := new_success_rate;
              avg_execution_time_ms := Some new_avg_time;
              skill_updated_at := now |}]> skills,
       Recorded skill_name success execution_time_ms)
  end.

Lemma truncate_bounds (x : Q) (n : Z) :
  (0 <= x)%Q -> (x <= inject_Z n)%Q -> 0 <= truncate x <= n.
Proof.
  destruct x as [a d]. unfold Qle, truncate. cbn. intros H0 Hn.
  rewrite Z.quot_div_nonneg by lia. split.
  - apply Z.div_pos; lia.
  - apply Z.div_le_upper_bound; lia.
Qed.

Lemma rnd_unit_interval (x : Q) : (0 <= x <= 1)%Q -> (0 <= rnd x <= 1)%Q.
Proof.
  intros [H0 H1]. split.
  - rewrite <- (rnd_integer 0) by lia. now apply rnd_monotone.
  - rewrite <- (rnd_integer 1) by lia. now apply rnd_monotone.
Qed.

Lemma success_count_bounds (rate : Q) (count : Z) (success : bool) :
  0 <= count <= 2 ^ 53 -> (0 <= rate <= 1)%Q ->
  0 <= truncate (rnd (rate * inject_Z count)) + (if success then 1 else 0)
    <= count + 1.
Proof.
  intros Hc [H0 H1].
  assert (Hcq : (0 <= inject_Z count)%Q) by (rewrite <- (Zle_Qle 0); lia).
  assert (Hlo : (0 <= rnd (rate * inject_Z count))%Q).
  { rewrite <- (rnd_integer 0) by lia. apply rnd_monotone.
    now apply Qmult_le_0_compat. }
  assert (Hhi : (rnd (rate * inject_Z count) <= inject_Z count)%Q).
  { rewrite <- (rnd_integer count) at 2 by exact Hc. apply rnd_monotone.
    rewrite <- (Qmult_1_l (inject_Z count)) at 2.
    now apply Qmult_le_compat_r. }
  pose proof (truncate_bounds _ _ Hlo Hhi). destruct success; lia.
Qed.

Lemma ratio_unit_interval (a b : Z) :
  0 <= a <= b -> 0 < b -> (0 <= inject_Z a / inject_Z b <= 1)%Q.
Proof.
  intros Ha Hb.
  assert (Hbq : (0 < inject_Z b)%Q) by (rewrite <- (Zlt_Qlt 0); lia).
  split.
  - apply Qle_shift_div_l; [exact Hbq|]. rewrite Qmult_0_l.
    rewrite <- (Zle_Qle 0). lia.
  - apply Qle_shift_div_r; [exact Hbq|]. rewrite Qmult_1_l.
    rewrite <- Zle_Qle. lia.
Qed.

(** The rows of every table the service builds have a count in [N] and a
    rate in [0, 1] ([add_skill] starts them at 0 and 0.0); recording an
    execution keeps it so. *)
Definition well_formed (skills : gmap string skill) : Prop :=
  forall name row, skills !! name = Some row ->
    0 <= execution_count row /\ (0 <= success_rate row <= 1)%Q.

Lemma record_skill_execution_well_formed
    now name success time (skills : gmap string skill) :
  well_formed skills ->
  (forall row, skills !! name = Some row -> execution_count row < 2 ^ 53) ->
  well_formed (fst (record_skill_execution now name success time skills)).
Proof.
  intros Hwf Hsmall. unfold record_skill_execution.
  destruct (skills !! name) as [row|] eqn:Hrow; [|exact Hwf].
  cbn [fst]. intros other row'. destruct (decide (other = name)) as [->|Hne].
  - rewrite lookup_insert_eq. intros [= <-]. cbn.
    destruct (Hwf _ _ Hrow) as [Hc Hr]. specialize (Hsmall _ eq_refl).
    split; [lia|].
    apply rnd_unit_interval, ratio_unit_interval; [|lia].
    apply success_count_bounds; [lia|exact Hr].
  - rewrite lookup_insert_ne by congruence. apply Hwf.
Qed.


End SkillExecution.

(** A skill as [add_skill] creates it, and exact arithmetic as the rounding. *)
Definition fresh_skill : skill :=
  {| skill_category := "ops"; procedure_steps := ["build"; "ship"]%string;
     preconditions := []; success_criteria := []; execution_count := 0;
     success_rate := 0%Q; avg_execution_time_ms := None; skill_updated_at := 0 |}.

Definition exact (x : Q) : Q := x.


(** Two executions, one success and one failure, in exact arithmetic. *)
Example record_skill_execution_twice :
  let skills1 :=
    fst (record_skill_execution exact 1 "deploy" true 120
           {["deploy"%string := fresh_skill]}) in
  let skills2 := fst (record_skill_execution exact 2 "deploy" false 80 skills1) in
  (execution_count <$> skills2 !! "deploy"%string) = Some 2
  /\ (success_rate <$> skills2 !! "deploy"%string) = Some (1 # 2)%Q.
Proof. vm_compute. split; reflexivity. Qed.

(** *** The store [create_entities] builds *)

(** [SELECT content FROM observations WHERE entity_id = ?], in rowid order. *)
Definition observations_of (id : Z) (db : memory_db) : list string :=
  List.map content
    (List.filter (fun o => observation_entity_id o =? id) (observations db)).

(** The version row written with an entity: number 1, with the snapshot of
    what was inserted. *)
Definition initial_version (db : memory_db) (e : entity) : entity_version :=
  {| version_entity_id := entity_id e; version_number := 1;
     version_snapshot :=
       {| snap_name := entity_name e; snap_type := entity_type e;
          snap_observations := observations_of (entity_id e) db |};
     version_created_at := entity_created_at e;
     commit_message := "Initial creation" |}.

(** A life of the store: calls of [create_entities], each with its time and
    its batch, on a database that starts empty. *)
Definition build (calls : list (Z * list entity_input)) : memory_db :=
  List.fold_left
    (fun db call => fst (create_entities (fst call) (snd call) db))
    calls empty_db.

Record shaped (db : memory_db) : Prop := {
  shaped_ids :
    List.map entity_id (entities db)
    = List.map Z.of_nat (List.seq 1 (length (entities db)));
  shaped_seq : entities_seq db = Z.of_nat (length (entities db));
  shaped_names : List.NoDup (entity_names db);
  shaped_observations :
    List.Forall (fun o => 1 <= observation_entity_id o <= entities_seq db)
                (observations db);
  shaped_versions :
    entity_versions db = List.map (initial_version db) (entities db)
}.

Lemma shaped_entity_id db e :
  shaped db -> In e (entities db) -> 1 <= entity_id e <= entities_seq db.
Proof.
  intros H He. apply (List.in_map entity_id) in He.
  rewrite (shaped_ids _ H) in He. apply List.in_map_iff in He as (n & <- & Hn).
  apply List.in_seq in Hn. rewrite (shaped_seq _ H). lia.
Qed.

Lemma filter_none_Z {X} (f : X -> Z) k l :
  List.Forall (fun x => f x <> k) l -> List.filter (fun x => f x =? k) l = [].
Proof.
  induction 1 as [|x l Hx _ IH]; [reflexivity|]. cbn.
  now replace (f x =? k) with false by lia.
Qed.

Lemma filter_all_Z {X} (f : X -> Z) k l :
  List.Forall (fun x => f x = k) l -> List.filter (fun x => f x =? k) l = l.
Proof.
  induction 1 as [|x l Hx _ IH]; [reflexivity|]. cbn.
  replace (f x =? k) with true by lia. now rewrite IH.
Qed.

Lemma create_entity_shaped now e db :
  shaped db -> shaped (fst (create_entity now e db)).
Proof.
  intros H. unfold create_entity.
  destruct (name_taken (input_name e) db) eqn:Htaken; cbn [fst]; [exact H|].
  pose proof (shaped_seq _ H) as Hseq.
  assert (Hnew : forall l : list string,
            List.Forall (fun o => observation_entity_id o = entities_seq db + 1)
              (List.map (fun o => {| observation_entity_id := entities_seq db + 1;
                                     content := o;
                                     observation_created_at := now |}) l)).
  { intros l. apply List.Forall_forall. intros o Ho.
    apply List.in_map_iff in Ho as (x & <- & _). reflexivity. }
  constructor; cbn [entities observations entity_versions entities_seq].
  - rewrite List.map_app, List.length_app, (shaped_ids _ H). cbn [length List.map].
    rewrite Nat.add_1_r, List.seq_S, List.map_app. cbn [List.map entity_id].
    do 2 f_equal. lia.
  - rewrite List.length_app. cbn [length]. lia.
  - unfold entity_names. cbn [entities]. rewrite List.map_app. cbn [List.map entity_name].
    apply (Permutation_NoDup (Permutation_cons_append _ _)).
    constructor; [|exact (shaped_names _ H)].
    intros Hin. unfold name_taken in Htaken.
    assert (Ht : List.existsb (fun e0 => String.eqb (entity_name e0) (input_name e))
                              (entities db) = true); [|congruence].
    apply List.in_map_iff in Hin as (e0 & He0 & Hin).
    apply List.existsb_exists. exists e0. split; [exact Hin|].
    now apply String.eqb_eq.
  - apply List.Forall_app. split.
    + eapply List.Forall_impl; [|exact (shaped_observations _ H)].
      cbn. intros o Ho. lia.
    + eapply List.Forall_impl; [|apply Hnew]. cbn. intros o Ho. lia.
  - rewrite List.map_app. cbn [List.map]. f_equal.
    + rewrite (shaped_versions _ H). apply List.map_ext_in. intros e0 He0.
      pose proof (shaped_entity_id _ _ H He0) as Hid.
      unfold initial_version, observations_of. cbn [observations].
      rewrite List.filter_app, (filter_none_Z observation_entity_id _ (List.map _ _)).
      * now rewrite app_nil_r.
      * eapply List.Forall_impl; [|apply Hnew]. cbn. intros o Ho. lia.
    + unfold initial_version, observations_of.
      cbn [entity_id entity_name entity_type entity_created_at observations].
      rewrite List.filter_app.
      rewrite (filter_all_Z observation_entity_id _ (List.map _ _)) by apply Hnew.
      rewrite (filter_none_Z observation_entity_id _ (observations db)).
      * cbn [app]. rewrite List.map_map. cbn [content]. now rewrite List.map_id.
      * eapply List.Forall_impl; [|exact (shaped_observations _ H)].
        cbn. intros o Ho. lia.
Qed.

Lemma create_loop_shaped now batch : forall db done failed,
  shaped db -> shaped (fst (create_loop now batch db done failed)).
Proof.
  induction batch as [|e rest IH]; intros db done failed H; [exact H|].
  cbn [create_loop]. pose proof (create_entity_shaped now e db H) as H1.
  destruct (create_entity now e db) as [db1 [c|msg]]; now apply IH.
Qed.

Lemma create_entities_shaped now batch db :
  shaped db -> shaped (fst (create_entities now batch db)).
Proof.
  intros H. unfold create_entities.
  pose proof (create_loop_shaped now batch db [] [] H) as H1.
  now destruct (create_loop now batch db [] []) as [db' [done failed]].
Qed.

Lemma empty_db_shaped : shaped empty_db.
Proof. constructor; cbn; try reflexivity; constructor. Qed.

Lemma build_shaped calls : shaped (build calls).
Proof.
  unfold build. generalize empty_db_shaped. generalize empty_db.
  induction calls as [|call calls IH]; intros db H; [exact H|].
  cbn [List.fold_left]. apply IH. now apply create_entities_shaped.
Qed.

(** X17: whatever batches [create_entities] was called with since the store
    was empty, the entities carry the ids 1, 2, ..., n in the order of their
    creation (an item that failed used no id), their names are distinct,
    every observation row points to an entity, and the version table holds
    exactly one row per entity: version 1, with the entity's name, type and
    observations as snapshot. *)
Theorem create_entities_store_shape (calls : list (Z * list entity_input)) :
  let db := build calls in
  List.map entity_id (entities db)
  = List.map Z.of_nat (List.seq 1 (length (entities db)))
  /\ entities_seq db = Z.of_nat (length (entities db))
  /\ List.NoDup (entity_names db)
  /\ List.Forall (fun o => 1 <= observation_entity_id o <= entities_seq db)
                 (observations db)
  /\ entity_versions db = List.map (initial_version db) (entities db).
Proof. cbv zeta. now destruct (build_shaped calls). Qed.

Lemma NoDup_seq_Z a n : List.NoDup (List.map Z.of_nat (List.seq a n)).
Proof.
  revert a. induction n as [|n IH]; intros a; cbn; constructor; [|apply IH].
  intros H. apply List.in_map_iff in H as (m & Hm & Hin).
  apply List.in_seq in Hin. lia.
Qed.

Lemma filter_key_NoDup {X} (f : X -> Z) k l :
  List.NoDup (List.map f l) ->
  (length (List.filter (fun x => (f x =? k)%Z) l) <= 1)%nat.
Proof.
  induction l as [|x l IH]; cbn; [lia|]. intros Hnd.
  apply List.NoDup_cons_iff in Hnd as [Hx Hnd].
  destruct (f x =? k) eqn:E; [|now apply IH].
  rewrite filter_none_Z; [cbn; lia|].
  apply List.Forall_forall. intros y Hy Hfy. apply Hx.
  apply List.in_map_iff. exists y. split; [lia|exact Hy].
Qed.

Lemma name_taken_find name db :
  name_taken name db
  = match select_entity name db with Some _ => true | None => false end.
Proof.
  unfold name_taken, select_entity.
  induction (entities db) as [|e l IH]; cbn; [reflexivity|].
  now destruct (String.eqb (entity_name e) name).
Qed.

Lemma memory_diff_shaped name version1 version2 db :
  shaped db ->
  memory_diff name version1 version2 db
  = if name_taken name db then DiffError "Not enough versions for diff"
    else DiffError ("Entity '" ++ name ++ "' not found").
Proof.
  intros H. rewrite name_taken_find. unfold memory_diff.
  destruct (select_entity name db) as [row|]; [|reflexivity].
  assert (Hlen : (length (versions_of row db) <= 1)%nat).
  { unfold versions_of.
    rewrite (Permutation_length (stable_sort_perm newest_first _)).
    rewrite (shaped_versions _ H).
    assert (Hmap : forall l,
              length (List.filter (fun v => version_entity_id v =? entity_id row)
                        (List.map (initial_version db) l))
              = length (List.filter (fun e => entity_id e =? entity_id row) l)).
    { induction l as [|e l IHl]; [reflexivity|]. cbn.
      destruct (entity_id e =? entity_id row); cbn; now rewrite IHl. }
    rewrite Hmap. apply filter_key_NoDup.
    rewrite (shaped_ids _ H). apply NoDup_seq_Z. }
  destruct (versions_of row db) as [|latest [|previous rest]];
    [reflexivity|reflexivity|cbn in Hlen; lia].
Qed.

(** X18: on a store that [create_entities] filled, [memory_diff] never
    returns a diff: for a known entity the answer is the error ["Not enough
    versions for diff"], whatever versions are asked for (with the defaults
    too), and for an unknown name the error that it was not found.  Nothing
    in the service writes a second version. *)
Theorem memory_diff_never_answers (calls : list (Z * list entity_input))
    name version1 version2 :
  memory_diff name version1 version2 (build calls)
  = if name_taken name (build calls)
    then DiffError "Not enough versions for diff"
    else DiffError ("Entity '" ++ name ++ "' not found").
Proof. apply memory_diff_shaped, build_shaped. Qed.

Lemma not_in_spec xs ys o :
  In o (not_in xs ys) <-> In o xs /\ ~ In o ys.
Proof.
  unfold not_in. rewrite List.filter_In, Bool.negb_true_iff.
  split; intros [Hx Hy]; (split; [exact Hx|]).
  - intros Hin. assert (Ht : List.existsb (String.eqb o) ys = true); [|congruence].
    apply List.existsb_exists. exists o. split; [exact Hin|apply String.eqb_refl].
  - destruct (List.existsb (String.eqb o) ys) eqn:E; [|reflexivity].
    apply List.existsb_exists in E as (y & Hy1 & Hy2).
    apply String.eqb_eq in Hy2. now subst y.
Qed.

(** X19: where [memory_diff] does return a diff of versions [a] and [b], the
    added observations are those of [b]'s snapshot that are not in [a]'s, the
    removed ones those of [a]'s snapshot that are not in [b]'s, and the diff
    asked the other way round has the two snapshots and the two lists
    exchanged. *)
Theorem memory_diff_swap name a b db e a' b' s1 s2 added removed :
  memory_diff name (Some a) (Some b) db = Diff e a' b' s1 s2 added removed ->
  e = name /\ a' = a /\ b' = b
  /\ (forall o, In o added
                <-> In o (snap_observations s2) /\ ~ In o (snap_observations s1))
  /\ (forall o, In o removed
                <-> In o (snap_observations s1) /\ ~ In o (snap_observations s2))
  /\ memory_diff name (Some b) (Some a) db = Diff name b a s2 s1 removed added.
Proof.
  unfold memory_diff. destruct (select_entity name db) as [row|]; [|discriminate].
  destruct (versions_of row db) as [|latest [|previous rest]]; try discriminate.
  cbn -[snapshot_at not_in].
  destruct (snapshot_at a _) as [d1|] eqn:E1; [|discriminate].
  destruct (snapshot_at b _) as [d2|] eqn:E2; [|discriminate].
  intros [= <- <- <- <- <- <- <-].
  split; [reflexivity|]. split; [reflexivity|]. split; [reflexivity|].
  split; [intros o; apply not_in_spec|].
  split; [intros o; apply not_in_spec|reflexivity].
Qed.

Lemma memory_diff_swap_witness :
  memory_diff "A" (Some 2) (Some 1) two_version_db
  = Diff "A" 2 1
      {| snap_name := "A"; snap_type := "t"; snap_observations := ["x"; "y"] |}
      {| snap_name := "A"; snap_type := "t"; snap_observations := ["x"] |}
      [] ["y"]%string.
Proof.
  apply (memory_diff_swap "A" 1 2 two_version_db "A"%string 1 2
           {| snap_name := "A"; snap_type := "t"; snap_observations := ["x"] |}
           {| snap_name := "A"; snap_type := "t"; snap_observations := ["x"; "y"] |}
           ["y"]%string []).
  reflexivity.
Defined.

(** *** Working memory: an item from its insertion to its expiry *)






(** *** Streaks of executions *)


Section SkillStreak.

Variable rnd : Q -> Q.
Hypothesis rnd_monotone : forall x y : Q, (x <= y)%Q -> (rnd x <= rnd y)%Q.
Hypothesis rnd_integer :
  forall z : Z, 0 <= z <= 2 ^ 53 -> (rnd (inject_Z z) == inject_Z z)%Q.







End SkillStreak.


End Memory.
